(** * Power-domain engine of m1n1 (src/pmgr.c): a shallow embedding

    The C file drives the power manager of the SoC: it resolves the address
    of a power domain's control register from two tables of the hardware
    description blob (the ADT), requests a power state by a masked write,
    polls for the acknowledgement, and walks the parent links of the domain.

    Machine integers are [Z] with the wrap-around written where the C code
    converts; a C pointer into the blob is the total function giving the
    element found at each index, with the byte length kept beside it as in the
    source; register accesses go through an interface ([RegisterIO]) and are
    recorded, with the diagnostics printed, in the list of events a
    computation emits. *)

From Stdlib Require Import ZArith Lia List Bool String.
From stdpp Require Import base option list gmap.
Import ListNotations.
Local Open Scope Z_scope.

(** ** Bit-field macros *)

(** The macros [BIT], [GENMASK], [FIELD_PREP] and [FIELD_GET] come from
    utils.h, which is not among the sources; the register layout of the
    specification (RESET bit 31, AUTO_ENABLE bit 28, ACTUAL_STATE bits 4-7,
    TARGET_STATE bits 0-3) fixes what they compute. *)

(** Modelled from the spec: [BIT(n)] of utils.h, the word with bit [n] set
    alone. *)
Definition BIT (n : Z) : Z := Z.shiftl 1 n.

(** Modelled from the spec: [GENMASK(h, l)] of utils.h, the mask with the
    bits [l] to [h] set, as the spec's fields "bits 4-7" and "bits 0-3". *)
Definition GENMASK (h l : Z) : Z := Z.shiftl 1 (h + 1) - Z.shiftl 1 l.

(** Position of the lowest set bit of a non-zero mask. *)
Definition mask_shift (mask : Z) : Z := Z.log2 (Z.land mask (- mask)).

(** Modelled from the spec: [FIELD_PREP(mask, val)] of utils.h, the value
    moved to the position of the field and cut to its width. *)
Definition FIELD_PREP (mask val : Z) : Z :=
  Z.land (Z.shiftl val (mask_shift mask)) mask.

(** Modelled from the spec: [FIELD_GET(mask, reg)] of utils.h, the value of
    the field of a register word. *)
Definition FIELD_GET (mask reg : Z) : Z :=
  Z.shiftr (Z.land reg mask) (mask_shift mask).

Definition u16 (x : Z) : Z := x mod 2 ^ 16.
Definition u32 (x : Z) : Z := x mod 2 ^ 32.
Definition u64 (x : Z) : Z := x mod 2 ^ 64.

(** ** Constants of pmgr.c *)

Definition PMGR_RESET : Z := BIT 31.
Definition PMGR_AUTO_ENABLE : Z := BIT 28.
Definition PMGR_PS_AUTO : Z := GENMASK 27 24.
Definition PMGR_PARENT_OFF : Z := BIT 11.
Definition PMGR_DEV_DISABLE : Z := BIT 10.
Definition PMGR_WAS_CLKGATED : Z := BIT 9.
Definition PMGR_WAS_PWRGATED : Z := BIT 8.
Definition PMGR_PS_ACTUAL : Z := GENMASK 7 4.
Definition PMGR_PS_TARGET : Z := GENMASK 3 0.

Definition PMGR_PS_ACTIVE : Z := 0xf.
Definition PMGR_PS_CLKGATE : Z := 0x4.
Definition PMGR_PS_PWRGATE : Z := 0x0.

Definition PMGR_POLL_TIMEOUT : Z := 10000.

Definition PMGR_FLAG_VIRTUAL : Z := 0x10.

(** ** Data *)

(** [struct pmgr_device]; the [unk] padding fields carry nothing the code
    reads and are left out. [parent0] and [parent1] are [parent[0]] and
    [parent[1]]. *)
Record pmgr_device : Type := mk_device {
  flags : Z;
  parent0 : Z;
  parent1 : Z;
  addr_offset : Z;
  psreg_idx : Z;
  id : Z;
  name : string
}.

Definition parent (d : pmgr_device) (i : nat) : Z :=
  match i with O => parent0 d | _ => parent1 d end.

(** What a property of the blob looks like through a pointer: the element
    at each index when the bytes are read as [u32]s and when they are read as
    device records. Indexing is unchecked, as in C; what lies behind the end
    of the property is whatever the blob holds there. *)
Record prop_view : Type := mk_view {
  as_u32 : nat -> Z;
  as_devices : nat -> pmgr_device
}.

(** Result of [adt_getprop]: the pointer ([None] is NULL) and the length in
    bytes it stores through its last argument. *)
Record adt_prop : Type := mk_prop {
  prop_ptr : option prop_view;
  prop_len : Z
}.

(** The blob reader (adt.h) is an external collaborator: it is taken as a
    parameter. A negative node offset means the node was not found;
    [adt_get_reg] is [None] when the C function returns a negative value. *)
Record adt_blob : Type := mk_adt {
  adt_path_offset : string -> Z;
  adt_path_offset_trace : string -> Z * list Z;
  adt_getprop : Z -> string -> adt_prop;
  adt_get_reg : list Z -> string -> Z -> option Z
}.

(** The static variables of pmgr.c. *)
Record pmgr_state : Type := mk_state {
  pmgr_initialized : Z;
  pmgr_path : list Z;
  pmgr_offset : Z;
  pmgr_ps_regs : option (nat -> Z);
  pmgr_ps_regs_len : Z;
  pmgr_devices : option (nat -> pmgr_device);
  pmgr_devices_len : Z
}.

(** The variables as the C file initialises them. *)
Definition pmgr_state0 : pmgr_state :=
  mk_state 0 (repeat 0 8) 0 None 0 None 0.

(** ** Diagnostics and register events *)

(** One constructor per [printf] of the file, with its arguments. *)
Inductive message : Type :=
| MsgPsregOutOfBounds (idx : Z)
| MsgRegsError
| MsgPollExpired (target_mode addr val : Z)
| MsgBeforeInit
| MsgNodeError (path : string)
| MsgClockGatesError (path : string)
| MsgNoPmgrNode
| MsgNoPsRegs
| MsgNoDevices
| MsgCleaningUp
| MsgParentNotFound (parent_id : Z) (child : string)
| MsgEnablingParent (parent_name child : string)
| MsgInitialized (n : Z).

Inductive event : Type :=
| EvRead (addr val : Z)
| EvWrite (addr val : Z)
| EvPrint (m : message).

(** A register access, as opposed to a diagnostic. *)
Definition is_io (e : event) : bool :=
  match e with EvRead _ _ | EvWrite _ _ => true | EvPrint _ => false end.

Definition is_write (e : event) : bool :=
  match e with EvWrite _ _ => true | _ => false end.

(** Address a register access goes to. *)
Definition io_addr (e : event) : option Z :=
  match e with
  | EvRead a _ | EvWrite a _ => Some a
  | EvPrint _ => None
  end.

(** ** Register interface *)

(** The memory-mapped registers: a read returns the value and the state the
    hardware is in afterwards (time passes, a transition may complete), a
    write returns the new state. *)
Class RegisterIO (HW : Type) : Type := {
  hw_read32 : Z -> HW -> Z * HW;
  hw_write32 : Z -> Z -> HW -> HW
}.

(** ** Computations *)

(** Why a run yields no result: the recursion went deeper than the fuel
    (a cycle of parents never returns), or a NULL table was dereferenced. *)
Inductive fault : Type := OutOfFuel | NullDeref.

Inductive outcome (HW A : Type) : Type :=
| Ret (a : A) (h : HW) (evs : list event)
| Abort (f : fault).
Arguments Ret {HW A} a h evs.
Arguments Abort {HW A} f.

Definition M (HW A : Type) : Type := HW -> outcome HW A.

Definition ret {HW A} (a : A) : M HW A := fun h => Ret a h [].

Definition bind {HW A B} (m : M HW A) (f : A -> M HW B) : M HW B :=
  fun h =>
    match m h with
    | Ret a h1 e1 =>
        match f a h1 with
        | Ret b h2 e2 => Ret b h2 (e1 ++ e2)
        | Abort x => Abort x
        end
    | Abort x => Abort x
    end.

Definition abort {HW A} (x : fault) : M HW A := fun _ => Abort x.

Notation "x <- m ;; k" := (bind m (fun x => k))
  (at level 62, m at next level, right associativity).
Notation "m ;;; k" := (bind m (fun _ => k))
  (at level 62, right associativity).

Definition printf {HW} (m : message) : M HW unit :=
  fun h => Ret tt h [EvPrint m].

Definition deref {HW A} (p : option (nat -> A)) (i : Z) : M HW A :=
  match p with
  | Some v => ret (v (Z.to_nat i))
  | None => abort NullDeref
  end.

Section Engine.

Context {HW : Type} {IO : RegisterIO HW}.
Variable adt : adt_blob.

(** *** Register primitives (utils.h) *)

(** [read32] and [write32] are the accesses of the register interface,
    each recorded as an event. *)
Definition read32 (addr : Z) : M HW Z :=
  fun h => let (v, h') := hw_read32 addr h in Ret v h' [EvRead addr v].

Definition write32 (addr val : Z) : M HW unit :=
  fun h => Ret tt (hw_write32 addr val h) [EvWrite addr val].

(** Modelled from the spec: [mask32] of utils.h is the masked write of the
    spec's RegisterIO, [write32-masked(addr, mask, value)]: the bits of
    [clear] are replaced by [set], the others are written back as read. *)
Definition mask32 (addr clear set : Z) : M HW unit :=
  v <- read32 addr ;;
  write32 addr (Z.lor (Z.land v (Z.lxor 0xffffffff clear)) set).

(** Modelled from the spec: [poll32] of utils.h is the spec's
    [poll32(addr, mask, expected, timeout) -> success|timeout], a wait of
    [timeout] polling iterations; each iteration reads the register once and
    succeeds when the masked value is the expected one. *)
Fixpoint poll32_loop (n : nat) (addr mask target : Z) : M HW Z :=
  match n with
  | O => ret (-1)
  | S n' =>
      v <- read32 addr ;;
      if Z.land v mask =? target then ret 0
      else poll32_loop n' addr mask target
  end.

Definition poll32 (addr mask target timeout : Z) : M HW Z :=
  poll32_loop (Z.to_nat timeout) addr mask target.

(** *** pmgr.c *)

Definition pmgr_get_psreg (st : pmgr_state) (idx : Z) : M HW Z :=
  if idx * 12 >=? pmgr_ps_regs_len st then
    printf (MsgPsregOutOfBounds idx) ;;; ret 0
  else
    reg_idx <- deref (pmgr_ps_regs st) (3 * idx) ;;
    reg_offset <- deref (pmgr_ps_regs st) (3 * idx + 1) ;;
    match adt_get_reg adt (pmgr_path st) "reg" reg_idx with
    | None => printf MsgRegsError ;;; ret 0
    | Some pmgr_reg => ret (u64 (pmgr_reg + reg_offset))
    end.

Definition pmgr_set_mode (addr target_mode : Z) : M HW Z :=
  mask32 addr PMGR_PS_TARGET (FIELD_PREP PMGR_PS_TARGET target_mode) ;;;
  r <- poll32 addr PMGR_PS_ACTUAL (FIELD_PREP PMGR_PS_ACTUAL target_mode)
         PMGR_POLL_TIMEOUT ;;
  if r <? 0 then
    v <- read32 addr ;;
    printf (MsgPollExpired target_mode addr v) ;;;
    ret (-1)
  else ret 0.

(** [Some d] stands for the return value 0 with [*device] set to [d], [None]
    for -1. [i] is the loop index, [n] the number of iterations left. *)
Fixpoint find_device_loop (st : pmgr_state) (dev_id : Z) (i : Z) (n : nat)
  : M HW (option pmgr_device) :=
  match n with
  | O => ret None
  | S n' =>
      i_device <- deref (pmgr_devices st) i ;;
      if negb (id i_device =? dev_id) then
        find_device_loop st dev_id (i + 1) n'
      else ret (Some i_device)
  end.

Definition pmgr_find_device (st : pmgr_state) (dev_id : Z)
  : M HW (option pmgr_device) :=
  find_device_loop st dev_id 0 (Z.to_nat (pmgr_devices_len st)).

Definition pmgr_device_get_addr (st : pmgr_state) (device : pmgr_device)
  : M HW Z :=
  addr <- pmgr_get_psreg st (psreg_idx device) ;;
  if addr =? 0 then ret 0
  else ret (u64 (addr + Z.shiftl (addr_offset device) 3)).

(** The loop over [parent[0]] and [parent[1]] of pmgr_set_mode_recursive;
    [call] is the recursive call. *)
Fixpoint parents_loop (call : Z -> M HW Z) (ps : list Z) : M HW Z :=
  match ps with
  | [] => ret 0
  | p :: rest =>
      if negb (p =? 0) then
        r <- call p ;;
        if r <? 0 then ret r else parents_loop call rest
      else parents_loop call rest
  end.

(** [fuel] bounds the depth of the recursion, which C leaves to the stack. *)
Fixpoint pmgr_set_mode_recursive (fuel : nat) (st : pmgr_state)
    (dev_id target_mode : Z) (recurse : bool) : M HW Z :=
  match fuel with
  | O => abort OutOfFuel
  | S fuel' =>
      if pmgr_initialized st =? 0 then
        printf MsgBeforeInit ;;; ret (-1)
      else if dev_id =? 0 then ret (-1)
      else
        found <- pmgr_find_device st dev_id ;;
        match found with
        | None => ret (-1)
        | Some device =>
            let parents :=
              if negb recurse then ret 0
              else
                parents_loop
                  (fun p => pmgr_set_mode_recursive fuel' st p target_mode true)
                  [parent device 0; parent device 1] in
            if Z.land (flags device) PMGR_FLAG_VIRTUAL =? 0 then
              addr <- pmgr_device_get_addr st device ;;
              if addr =? 0 then ret (-1)
              else
                r <- pmgr_set_mode addr target_mode ;;
                if negb (r =? 0) then ret (-1) else parents
            else parents
        end
  end.

Definition pmgr_clock_enable (fuel : nat) (st : pmgr_state) (dev_id : Z)
  : M HW Z :=
  pmgr_set_mode_recursive fuel st dev_id PMGR_PS_ACTIVE true.

Definition pmgr_clock_disable (fuel : nat) (st : pmgr_state) (dev_id : Z)
  : M HW Z :=
  pmgr_set_mode_recursive fuel st dev_id PMGR_PS_PWRGATE false.

(** [Some (clocks, n_clocks)] stands for the return value 0 with the two
    results stored, [None] for -1. *)
Definition pmgr_adt_find_clocks (path : string)
  : M HW (option ((nat -> Z) * Z)) :=
  let node_offset := adt_path_offset adt path in
  if node_offset <? 0 then
    printf (MsgNodeError path) ;;; ret None
  else
    let p := adt_getprop adt node_offset "clock-gates" in
    match prop_ptr p with
    | None => printf (MsgClockGatesError path) ;;; ret None
    | Some clocks =>
        if prop_len p =? 0 then
          printf (MsgClockGatesError path) ;;; ret None
        else ret (Some (as_u32 clocks, prop_len p / 4))
    end.

(** The loop of pmgr_adt_clocks_set_mode: [i] is the index, [n] the number
    of iterations left, [res] the variable [ret]. The [u32] entry is
    converted to the [u16] parameter of pmgr_set_mode_recursive. *)
Fixpoint clocks_loop (fuel : nat) (st : pmgr_state) (clocks : nat -> Z)
    (target_mode : Z) (recurse : bool) (i : Z) (n : nat) (res : Z)
  : M HW Z :=
  match n with
  | O => ret res
  | S n' =>
      r <- pmgr_set_mode_recursive fuel st (u16 (clocks (Z.to_nat i)))
             target_mode recurse ;;
      clocks_loop fuel st clocks target_mode recurse (i + 1) n'
        (if negb (r =? 0) then -1 else res)
  end.

Definition pmgr_adt_clocks_set_mode (fuel : nat) (st : pmgr_state)
    (path : string) (target_mode : Z) (recurse : bool) : M HW Z :=
  found <- pmgr_adt_find_clocks path ;;
  match found with
  | None => ret (-1)
  | Some (clocks, n_clocks) =>
      clocks_loop fuel st clocks target_mode recurse 0 (Z.to_nat n_clocks) 0
  end.

Definition pmgr_adt_clocks_enable (fuel : nat) (st : pmgr_state)
    (path : string) : M HW Z :=
  pmgr_adt_clocks_set_mode fuel st path PMGR_PS_ACTIVE true.

Definition pmgr_adt_clocks_disable (fuel : nat) (st : pmgr_state)
    (path : string) : M HW Z :=
  pmgr_adt_clocks_set_mode fuel st path PMGR_PS_PWRGATE false.

(** [sizeof(struct pmgr_device)]: the record is packed,
    4 + 2*2 + 2 + 1 + 1 + 14 + 2 + 4 + 16 bytes. *)
Definition sizeof_pmgr_device : Z := 48.

(** Does the register value show a domain that wants to run? This is the
    test [reg & PMGR_AUTO_ENABLE || FIELD_GET(PMGR_PS_TARGET, reg) ==
    PMGR_PS_ACTIVE] of pmgr_init. *)
Definition shows_active (reg : Z) : bool :=
  negb (Z.land reg PMGR_AUTO_ENABLE =? 0)
  || (FIELD_GET PMGR_PS_TARGET reg =? PMGR_PS_ACTIVE).

(** Body of the inner loop of pmgr_init for slot [j] of [device]. *)
Definition init_parent (st : pmgr_state) (device : pmgr_device) (j : nat)
  : M HW unit :=
  if negb (parent device j =? 0) then
    found <- pmgr_find_device st (parent device j) ;;
    match found with
    | None => printf (MsgParentNotFound (parent device j) (name device))
    | Some pdevice =>
        addr <- pmgr_device_get_addr st pdevice ;;
        if addr =? 0 then ret tt
        else
          reg <- read32 addr ;;
          if negb (negb (Z.land reg PMGR_AUTO_ENABLE =? 0))
             && negb (FIELD_GET PMGR_PS_TARGET reg =? PMGR_PS_ACTIVE)
          then
            printf (MsgEnablingParent (name pdevice) (name device)) ;;;
            _ <- pmgr_set_mode addr PMGR_PS_ACTIVE ;;
            ret tt
          else ret tt
    end
  else ret tt.

(** Body of the outer loop of pmgr_init. *)
Definition init_device (st : pmgr_state) (device : pmgr_device)
  : M HW unit :=
  if negb (Z.land (flags device) PMGR_FLAG_VIRTUAL =? 0) then ret tt
  else
    addr <- pmgr_device_get_addr st device ;;
    if addr =? 0 then ret tt
    else
      reg <- read32 addr ;;
      if shows_active reg then
        init_parent st device 0 ;;; init_parent st device 1
      else ret tt.

Fixpoint init_loop (st : pmgr_state) (i : Z) (n : nat) : M HW unit :=
  match n with
  | O => ret tt
  | S n' =>
      device <- deref (pmgr_devices st) i ;;
      init_device st device ;;;
      init_loop st (i + 1) n'
  end.

(** pmgr_init returns its [int] and leaves the static variables in the
    state given with it. *)
Definition pmgr_init (st : pmgr_state) : M HW (Z * pmgr_state) :=
  let (offset, path) := adt_path_offset_trace adt "/arm-io/pmgr" in
  let st1 :=
    mk_state (pmgr_initialized st) path offset
      (pmgr_ps_regs st) (pmgr_ps_regs_len st)
      (pmgr_devices st) (pmgr_devices_len st) in
  if offset <? 0 then
    printf MsgNoPmgrNode ;;; ret (-1, st1)
  else
    let p := adt_getprop adt offset "ps-regs" in
    let st2 :=
      mk_state (pmgr_initialized st) path offset
        (option_map as_u32 (prop_ptr p)) (prop_len p)
        (pmgr_devices st) (pmgr_devices_len st) in
    if bool_decide (prop_ptr p = None) || (prop_len p =? 0) then
      printf MsgNoPsRegs ;;; ret (-1, st2)
    else
      let q := adt_getprop adt offset "devices" in
      let st3 :=
        mk_state (pmgr_initialized st) path offset
          (option_map as_u32 (prop_ptr p)) (prop_len p)
          (option_map as_devices (prop_ptr q)) (prop_len q) in
      if bool_decide (prop_ptr q = None) || (prop_len q =? 0) then
        printf MsgNoDevices ;;; ret (-1, st3)
      else
        let st4 :=
          mk_state 1 path offset
            (option_map as_u32 (prop_ptr p)) (prop_len p)
            (option_map as_devices (prop_ptr q))
            (prop_len q / sizeof_pmgr_device) in
        printf MsgCleaningUp ;;;
        init_loop st4 0 (Z.to_nat (pmgr_devices_len st4)) ;;;
        printf (MsgInitialized (pmgr_devices_len st4)) ;;;
        ret (0, st4).

End Engine.

Arguments read32 {HW IO} addr h.
Arguments write32 {HW IO} addr val h.

(** ** A simulated register file *)

(** Registers live in a finite map (absent ones read 0). A write stores the
    value with the ACTUAL_STATE field made equal to the TARGET_STATE field
    written: the domain reaches the requested state at once. For an address
    in [stuck] the ACTUAL_STATE field keeps its old value instead: the
    domain never acknowledges. *)
Record regfile : Type := mk_regfile {
  regs : gmap Z Z;
  stuck : gset Z
}.

Definition regfile_peek (h : regfile) (a : Z) : Z := default 0 (regs h !! a).

Definition regfile_store (h : regfile) (a v : Z) : Z :=
  let actual :=
    if bool_decide (a ∈ stuck h) then Z.land (regfile_peek h a) PMGR_PS_ACTUAL
    else Z.shiftl (Z.land v PMGR_PS_TARGET) 4 in
  Z.lor (Z.land v (Z.lxor 0xffffffff PMGR_PS_ACTUAL)) actual.

#[export] Instance regfile_io : RegisterIO regfile := {
  hw_read32 a h := (regfile_peek h a, h);
  hw_write32 a v h := mk_regfile (<[a := regfile_store h a v]> (regs h)) (stuck h)
}.


(** ** Facts about computations *)

Section MonadFacts.

Context {HW : Type}.

Lemma bind_Ret {A B} (m : M HW A) (f : A -> M HW B) h a h1 e1 :
  m h = Ret a h1 e1 ->
  bind m f h =
    match f a h1 with
    | Ret b h2 e2 => Ret b h2 (e1 ++ e2)
    | Abort x => Abort x
    end.
Proof. intros Hm. unfold bind. now rewrite Hm. Qed.

Lemma bind_Ret_inv {A B} (m : M HW A) (f : A -> M HW B) h b h2 evs :
  bind m f h = Ret b h2 evs ->
  exists a h1 e1 e2,
    m h = Ret a h1 e1 /\ f a h1 = Ret b h2 e2 /\ evs = e1 ++ e2.
Proof.
  unfold bind. destruct (m h) as [a h1 e1|x]; [|discriminate].
  destruct (f a h1) as [b' h2' e2|x] eqn:Hf; [|discriminate].
  intros [= -> -> <-]. now exists a, h1, e1, e2.
Qed.

Lemma bind_Ret_nil {A B} (m : M HW A) (f : A -> M HW B) h a h1 :
  m h = Ret a h1 [] -> bind m f h = f a h1.
Proof. intros Hm. unfold bind. rewrite Hm. now destruct (f a h1). Qed.

Lemma bind_Abort {A B} (m : M HW A) (f : A -> M HW B) h x :
  m h = Abort x -> bind m f h = Abort x.
Proof. intros Hm. unfold bind. now rewrite Hm. Qed.

Lemma bind_ret_l {A B} (a : A) (f : A -> M HW B) h :
  bind (ret a) f h = f a h.
Proof. unfold bind, ret. now destruct (f a h). Qed.

Lemma bind_printf {B} (m : message) (k : M HW B) h :
  bind (printf m) (fun _ => k) h =
    match k h with
    | Ret b h2 e2 => Ret b h2 (EvPrint m :: e2)
    | Abort x => Abort x
    end.
Proof. reflexivity. Qed.

End MonadFacts.

(** ** Pure readings of the tables *)

Section Tables.

Context {HW : Type} {IO : RegisterIO HW}.
Variable adt : adt_blob.

(** The records [pmgr_devices[0 .. pmgr_devices_len - 1]], in index order. *)
Definition device_array (st : pmgr_state) : list pmgr_device :=
  match pmgr_devices st with
  | Some devs => map devs (seq 0 (Z.to_nat (pmgr_devices_len st)))
  | None => []
  end.

(** The first record of the table with the given id. *)
Definition lookup_device (st : pmgr_state) (dev_id : Z)
  : option pmgr_device :=
  List.find (fun d => id d =? dev_id) (device_array st).

(** The tables are there: no pointer is NULL. *)
Definition tables_loaded (st : pmgr_state) : Prop :=
  is_Some (pmgr_ps_regs st) /\ is_Some (pmgr_devices st).

(** Value of pmgr_get_psreg, 0 when it fails. *)
Definition bank_address (st : pmgr_state) (idx : Z) : Z :=
  if idx * 12 >=? pmgr_ps_regs_len st then 0
  else
    match pmgr_ps_regs st with
    | Some ps =>
        match adt_get_reg adt (pmgr_path st) "reg" (ps (Z.to_nat (3 * idx))) with
        | Some pmgr_reg => u64 (pmgr_reg + ps (Z.to_nat (3 * idx + 1)))
        | None => 0
        end
    | None => 0
    end.

(** Value of pmgr_device_get_addr, 0 when it fails. *)
Definition device_addr (st : pmgr_state) (d : pmgr_device) : Z :=
  let addr := bank_address st (psreg_idx d) in
  if addr =? 0 then 0 else u64 (addr + Z.shiftl (addr_offset d) 3).

Definition is_virtual (d : pmgr_device) : bool :=
  negb (Z.land (flags d) PMGR_FLAG_VIRTUAL =? 0).

Lemma find_device_loop_pure st devs dev_id n : forall i h,
  pmgr_devices st = Some devs -> 0 <= i ->
  find_device_loop (HW:=HW) st dev_id i n h =
    Ret (List.find (fun d => id d =? dev_id) (map devs (seq (Z.to_nat i) n))) h [].
Proof.
  induction n as [|n IH]; intros i h Hd Hi; [reflexivity|].
  cbn [find_device_loop seq map List.find].
  unfold deref. rewrite Hd, bind_ret_l.
  destruct (id (devs (Z.to_nat i)) =? dev_id); cbn [negb]; [reflexivity|].
  rewrite IH by (trivial; lia).
  now replace (Z.to_nat (i + 1)) with (S (Z.to_nat i)) by lia.
Qed.

Lemma pmgr_find_device_pure st dev_id h :
  is_Some (pmgr_devices st) ->
  pmgr_find_device (HW:=HW) st dev_id h = Ret (lookup_device st dev_id) h [].
Proof.
  intros [devs Hd]. unfold pmgr_find_device, lookup_device, device_array.
  rewrite Hd. now apply find_device_loop_pure.
Qed.

(** pmgr_get_psreg leaves the hardware alone: it returns [bank_address]
    and prints a diagnostic exactly when it fails. *)
Lemma pmgr_get_psreg_pure st idx :
  is_Some (pmgr_ps_regs st) ->
  exists msgs,
    (forall h : HW, pmgr_get_psreg adt st idx h = Ret (bank_address st idx) h msgs)
    /\ Forall (fun e => is_io e = false) msgs
    /\ (bank_address st idx <> 0 -> msgs = []).
Proof.
  intros [ps Hps]. unfold pmgr_get_psreg, bank_address. rewrite Hps.
  destruct (idx * 12 >=? pmgr_ps_regs_len st).
  - eexists; split; [intros h; reflexivity|]. split; [|congruence].
    now repeat constructor.
  - unfold deref.
    destruct (adt_get_reg adt (pmgr_path st) "reg" (ps (Z.to_nat (3 * idx))))
      eqn:E.
    + exists []. split; [|split; [constructor|reflexivity]].
      intros h. now rewrite !bind_ret_l, E.
    + exists [EvPrint MsgRegsError]. split; [|split; [|congruence]].
      * intros h. now rewrite !bind_ret_l, E.
      * now repeat constructor.
Qed.

Lemma pmgr_device_get_addr_pure st d :
  is_Some (pmgr_ps_regs st) ->
  exists msgs,
    (forall h : HW, pmgr_device_get_addr adt st d h = Ret (device_addr st d) h msgs)
    /\ Forall (fun e => is_io e = false) msgs
    /\ (device_addr st d <> 0 -> msgs = []).
Proof.
  intros Hps. destruct (pmgr_get_psreg_pure st (psreg_idx d) Hps)
    as (msgs & Hrun & Hmsgs & Hnil).
  exists msgs. unfold pmgr_device_get_addr, device_addr. split; [|split]; trivial.
  - intros h. rewrite (bind_Ret _ _ _ _ _ _ (Hrun h)).
    destruct (bank_address st (psreg_idx d) =? 0); cbn; now rewrite app_nil_r.
  - destruct (bank_address st (psreg_idx d) =? 0) eqn:E; [congruence|].
    intros _. apply Hnil. lia.
Qed.

End Tables.

(** ** The state-transition primitive *)

Section SetMode.

Context {HW : Type} {IO : RegisterIO HW}.

(** A polling read that did not show the expected field value. *)
Definition poll_miss (addr mask target : Z) (e : event) : Prop :=
  exists v, e = EvRead addr v /\ Z.land v mask <> target.

Lemma poll32_loop_trace n addr mask target : forall h : HW,
  exists r h' misses tail,
    poll32_loop n addr mask target h = Ret r h' (misses ++ tail)
    /\ Forall (poll_miss addr mask target) misses
    /\ ((r = 0 /\ (length misses < n)%nat
         /\ exists v, tail = [EvRead addr v] /\ Z.land v mask = target)
        \/ (r = -1 /\ length misses = n /\ tail = [])).
Proof.
  induction n as [|n IH]; intros h.
  - exists (-1), h, [], []. split; [reflexivity|]. split; [constructor|].
    right. easy.
  - cbn [poll32_loop]. unfold bind at 1, read32.
    destruct (hw_read32 addr h) as [v h1].
    destruct (Z.land v mask =? target) eqn:E.
    + exists 0, h1, [], [EvRead addr v]. split; [reflexivity|].
      split; [constructor|]. left. cbn. repeat split; try lia.
      exists v. split; [reflexivity|lia].
    + destruct (IH h1) as (r & h' & misses & tail & Hrun & Hmiss & Hres).
      rewrite Hrun.
      exists r, h', (EvRead addr v :: misses), tail.
      split; [reflexivity|]. split.
      * constructor; [|assumption]. exists v. split; [reflexivity|lia].
      * cbn [length]. destruct Hres as [(-> & Hlen & Hv)|(-> & Hlen & ->)];
          [left|right]; repeat split; trivial; lia.
Qed.

(** The value pmgr_set_mode writes back after reading [v]. *)
Definition with_target (v target_mode : Z) : Z :=
  Z.lor (Z.land v (Z.lxor 0xffffffff PMGR_PS_TARGET))
        (FIELD_PREP PMGR_PS_TARGET target_mode).

(** Shape of every run of pmgr_set_mode: the read and the write of the
    masked write, the polls that missed, and either the poll that hit or,
    with the budget used up, the read of the diagnostic and the diagnostic. *)
Lemma pmgr_set_mode_trace addr target_mode (h : HW) :
  exists v0 r h' misses tail,
    pmgr_set_mode addr target_mode h =
      Ret r h' (EvRead addr v0 :: EvWrite addr (with_target v0 target_mode)
                  :: misses ++ tail)
    /\ Forall (poll_miss addr PMGR_PS_ACTUAL
                 (FIELD_PREP PMGR_PS_ACTUAL target_mode)) misses
    /\ ((r = 0 /\ (length misses < Z.to_nat PMGR_POLL_TIMEOUT)%nat
         /\ exists v, tail = [EvRead addr v]
              /\ Z.land v PMGR_PS_ACTUAL = FIELD_PREP PMGR_PS_ACTUAL target_mode)
        \/ (r = -1 /\ length misses = Z.to_nat PMGR_POLL_TIMEOUT
            /\ exists v, tail = [EvRead addr v;
                                 EvPrint (MsgPollExpired target_mode addr v)])).
Proof.
  unfold pmgr_set_mode, mask32, poll32, with_target.
  generalize (Z.to_nat PMGR_POLL_TIMEOUT) as n. intros n.
  unfold bind at 1 2, read32 at 1, write32.
  destruct (hw_read32 addr h) as [v0 h1]. cbn [app].
  set (h2 := hw_write32 addr _ h1).
  destruct (poll32_loop_trace n addr PMGR_PS_ACTUAL
              (FIELD_PREP PMGR_PS_ACTUAL target_mode) h2)
    as (r & h' & misses & tail & Hrun & Hmiss & Hres).
  rewrite (bind_Ret _ _ _ _ _ _ Hrun).
  destruct Hres as [(-> & Hlen & v & -> & Hv)|(-> & Hlen & ->)].
  - exists v0, 0, h', misses, [EvRead addr v]. cbn.
    rewrite app_nil_r. split; [reflexivity|]. split; [assumption|].
    left. repeat split; trivial. now exists v.
  - change (-1 <? 0) with true. cbv iota. unfold bind, read32, printf, ret.
    destruct (hw_read32 addr h') as [v h3]. cbn [app].
    rewrite !app_nil_r.
    exists v0, (-1), h3, misses,
      [EvRead addr v; EvPrint (MsgPollExpired target_mode addr v)].
    split; [reflexivity|]. split; [assumption|].
    right. repeat split; trivial. now exists v.
Qed.


Lemma with_target_field v target_mode :
  Z.land (with_target v target_mode) PMGR_PS_TARGET =
  FIELD_PREP PMGR_PS_TARGET target_mode.
Proof.
  unfold with_target, FIELD_PREP.
  rewrite Z.land_lor_distr_l, <- !Z.land_assoc, Z.land_diag.
  replace (Z.land (Z.lxor 0xffffffff PMGR_PS_TARGET) PMGR_PS_TARGET) with 0
    by reflexivity.
  now rewrite Z.land_0_r, Z.lor_0_l.
Qed.

Lemma pmgr_set_mode_total addr target_mode (h : HW) :
  exists r h' evs,
    pmgr_set_mode addr target_mode h = Ret r h' evs /\ (r = 0 \/ r = -1).
Proof.
  destruct (pmgr_set_mode_trace addr target_mode h)
    as (v0 & r & h' & misses & tail & Hrun & _ & Hres).
  exists r, h'. eexists. split; [exact Hrun|]. intuition.
Qed.

Lemma poll_miss_io addr mask target misses :
  Forall (poll_miss addr mask target) misses ->
  Forall (fun e => io_addr e = Some addr /\ is_write e = false) misses.
Proof.
  apply List.Forall_impl. intros e (v & -> & _). now split.
Qed.

(** Every register access of pmgr_set_mode goes to [addr], and exactly one
    of them is a write. *)
Lemma pmgr_set_mode_io addr target_mode (h : HW) r h' evs :
  pmgr_set_mode addr target_mode h = Ret r h' evs ->
  Forall (fun e => is_io e = true -> io_addr e = Some addr) evs
  /\ List.filter is_write evs
     = [EvWrite addr (with_target (fst (hw_read32 addr h)) target_mode)].
Proof.
  intros Hrun.
  destruct (pmgr_set_mode_trace addr target_mode h)
    as (v0 & r' & h'' & misses & tail & Hrun' & Hmiss & Hres).
  assert (Hv0 : fst (hw_read32 addr h) = v0).
  { revert Hrun'. unfold pmgr_set_mode, mask32.
    unfold bind at 1 2, read32 at 1.
    destruct (hw_read32 addr h) as [v1 h1]. cbn [write32 app fst].
    destruct (bind _ _ _); [|discriminate]. now intros [= _ _ -> _]. }
  rewrite Hrun' in Hrun. injection Hrun as <- <- <-. rewrite Hv0.
  apply poll_miss_io in Hmiss.
  assert (Htail : Forall (fun e => is_io e = true -> io_addr e = Some addr) tail
                  /\ List.filter is_write tail = []).
  { destruct Hres as [(_ & _ & v & -> & _)|(_ & _ & v & ->)];
      split; try reflexivity; repeat constructor; discriminate. }
  destruct Htail as [Htail1 Htail2]. split.
  - constructor; [reflexivity|]. constructor; [reflexivity|].
    apply Forall_app. split; [|assumption].
    eapply List.Forall_impl; [|exact Hmiss]. now intros e [He _] _.
  - cbn. f_equal. rewrite List.filter_app, Htail2, app_nil_r.
    clear -Hmiss. induction Hmiss as [|e l [_ He] _ IH]; [reflexivity|].
    cbn. now rewrite He.
Qed.


End SetMode.

(** ** The recursive transition *)

Section Recursion.

Context {HW : Type} {IO : RegisterIO HW}.
Variable adt : adt_blob.

Lemma bind_assoc {A B C} (m : M HW A) (f : A -> M HW B) (g : B -> M HW C) h :
  bind (bind m f) g h = bind m (fun a => bind (f a) g) h.
Proof.
  unfold bind. destruct (m h) as [a h1 e1|x]; [|reflexivity].
  destruct (f a h1) as [b h2 e2|x]; [|reflexivity].
  destruct (g b h2) as [c h3 e3|x]; [|reflexivity].
  now rewrite app_assoc.
Qed.

Lemma bind_ext {A B} (m : M HW A) (f g : A -> M HW B) h :
  (forall a h1, f a h1 = g a h1) -> bind m f h = bind m g h.
Proof.
  intros Hfg. unfold bind. destruct (m h) as [a h1 e1|x]; [|reflexivity].
  now rewrite Hfg.
Qed.

Lemma pmgr_find_device_cases st dev_id (h : HW) :
  pmgr_find_device st dev_id h = Ret (lookup_device st dev_id) h []
  \/ (pmgr_find_device st dev_id h = Abort NullDeref
      /\ pmgr_devices st = None).
Proof.
  destruct (pmgr_devices st) as [devs|] eqn:Hd.
  - left. apply pmgr_find_device_pure. rewrite Hd. now eexists.
  - unfold pmgr_find_device, lookup_device, device_array. rewrite Hd.
    destruct (Z.to_nat (pmgr_devices_len st)) as [|n]; [now left|right].
    cbn [find_device_loop]. unfold deref. now rewrite Hd.
Qed.

(** The parent slots of the device with the given id. *)
Definition parents_of (st : pmgr_state) (dev_id : Z) : list Z :=
  match lookup_device st dev_id with
  | Some d => [parent d 0; parent d 1]
  | None => []
  end.

(** The device's own transition: the call that does not recurse. *)
Definition own_transition (st : pmgr_state) (dev_id target_mode : Z)
  : M HW Z :=
  pmgr_set_mode_recursive adt 1 st dev_id target_mode false.

(** A call is the device's own transition followed, when that succeeded
    and [recurse] is set, by the loop over the parent slots. *)
Lemma pmgr_set_mode_recursive_eq fuel st dev_id target_mode recurse h :
  pmgr_set_mode_recursive adt (S fuel) st dev_id target_mode recurse h =
  bind (own_transition st dev_id target_mode)
    (fun r =>
       if r =? 0 then
         if negb recurse then ret 0
         else
           parents_loop
             (fun p => pmgr_set_mode_recursive adt fuel st p target_mode true)
             (parents_of st dev_id)
       else ret r) h.
Proof.
  unfold own_transition. cbn [pmgr_set_mode_recursive].
  destruct (pmgr_initialized st =? 0); [reflexivity|].
  destruct (dev_id =? 0); [reflexivity|].
  rewrite bind_assoc.
  destruct (pmgr_find_device_cases st dev_id h) as [Hf|[Hf _]].
  2:{ now rewrite !(bind_Abort _ _ _ _ Hf). }
  rewrite !(bind_Ret_nil _ _ _ _ _ Hf). unfold parents_of.
  destruct (lookup_device st dev_id) as [d|]; [|reflexivity].
  cbn [negb].
  destruct (Z.land (flags d) PMGR_FLAG_VIRTUAL =? 0).
  - rewrite bind_assoc. apply bind_ext. intros addr h1.
    destruct (addr =? 0); [now rewrite bind_ret_l|].
    rewrite bind_assoc. apply bind_ext. intros r h2.
    destruct (r =? 0) eqn:E; cbn [negb]; now rewrite bind_ret_l.
  - now rewrite bind_ret_l.
Qed.

(** The own transition, case by case. *)
Lemma own_transition_eq st dev_id target_mode :
  tables_loaded st ->
  exists msgs,
    Forall (fun e => is_io e = false) msgs /\
    forall h : HW,
      own_transition st dev_id target_mode h =
        if pmgr_initialized st =? 0 then Ret (-1) h [EvPrint MsgBeforeInit]
        else if dev_id =? 0 then Ret (-1) h []
        else
          match lookup_device st dev_id with
          | None => Ret (-1) h []
          | Some d =>
              if is_virtual d then Ret 0 h []
              else if device_addr adt st d =? 0 then Ret (-1) h msgs
              else pmgr_set_mode (device_addr adt st d) target_mode h
          end.
Proof.
  intros [Hps Hdev]. unfold own_transition. cbn [pmgr_set_mode_recursive].
  destruct (pmgr_initialized st =? 0).
  { exists []. split; [constructor|reflexivity]. }
  destruct (dev_id =? 0).
  { exists []. split; [constructor|reflexivity]. }
  destruct (lookup_device st dev_id) as [d|] eqn:Hl.
  2:{ exists []. split; [constructor|]. intros h.
      rewrite (bind_Ret_nil _ _ _ _ _ (pmgr_find_device_pure st dev_id h Hdev)).
      now rewrite Hl. }
  destruct (pmgr_device_get_addr_pure (HW:=HW) adt st d Hps)
    as (msgs & Hrun & Hmsgs & Hnil).
  exists msgs. split; [assumption|]. intros h.
  rewrite (bind_Ret_nil _ _ _ _ _ (pmgr_find_device_pure st dev_id h Hdev)).
  rewrite Hl. unfold is_virtual. cbn [negb].
  destruct (Z.land (flags d) PMGR_FLAG_VIRTUAL =? 0); cbn [negb]; [|reflexivity].
  rewrite (bind_Ret _ _ _ _ _ _ (Hrun h)).
  destruct (device_addr adt st d =? 0) eqn:Ea.
  { cbn. now rewrite app_nil_r. }
  rewrite Hnil by lia. cbn [app].
  destruct (pmgr_set_mode_total (device_addr adt st d) target_mode h)
    as (r & h' & evs & Hs & Hr).
  rewrite (bind_Ret _ _ _ _ _ _ Hs), Hs.
  destruct Hr as [-> | ->]; cbn; now rewrite app_nil_r.
Qed.

(** The calls return 0 or -1. *)
Lemma own_transition_range st dev_id target_mode (h : HW) r h' evs :
  own_transition st dev_id target_mode h = Ret r h' evs -> r = 0 \/ r = -1.
Proof.
  unfold own_transition. cbn [pmgr_set_mode_recursive].
  destruct (pmgr_initialized st =? 0); [intros [= <- _ _]; now right|].
  destruct (dev_id =? 0); [intros [= <- _ _]; now right|].
  intros H. apply bind_Ret_inv in H as (found & h1 & e1 & e2 & _ & H & _).
  destruct found as [d|]; [|injection H as <- _ _; now right].
  cbn [negb] in H.
  destruct (Z.land (flags d) PMGR_FLAG_VIRTUAL =? 0);
    [|injection H as <- _ _; now left].
  apply bind_Ret_inv in H as (addr & h2 & e3 & e4 & _ & H & _).
  destruct (addr =? 0); [injection H as <- _ _; now right|].
  apply bind_Ret_inv in H as (r' & h3 & e5 & e6 & _ & H & _).
  destruct (r' =? 0); cbn [negb] in H; injection H as <- _ _; auto.
Qed.

Lemma parents_loop_range (call : Z -> M HW Z) ps :
  (forall p h r h' evs, call p h = Ret r h' evs -> r = 0 \/ r = -1) ->
  forall h r h' evs,
    parents_loop call ps h = Ret r h' evs -> r = 0 \/ r = -1.
Proof.
  intros Hcall. induction ps as [|p ps IH]; intros h r h' evs H.
  - injection H as <- _ _. now left.
  - cbn [parents_loop] in H. destruct (p =? 0); cbn [negb] in H; [eauto|].
    apply bind_Ret_inv in H as (r0 & h1 & e1 & e2 & Hc & H & _).
    destruct (r0 <? 0); [|eauto].
    injection H as <- _ _. eauto.
Qed.

Lemma pmgr_set_mode_recursive_range fuel : forall st dev_id target_mode recurse
    (h : HW) r h' evs,
  pmgr_set_mode_recursive adt fuel st dev_id target_mode recurse h = Ret r h' evs ->
  r = 0 \/ r = -1.
Proof.
  induction fuel as [|fuel IH]; intros st dev_id target_mode recurse h r h' evs H;
    [discriminate|].
  rewrite pmgr_set_mode_recursive_eq in H.
  apply bind_Ret_inv in H as (r0 & h1 & e1 & e2 & Hown & H & _).
  apply own_transition_range in Hown.
  destruct (r0 =? 0) eqn:E.
  - destruct recurse; cbn [negb] in H; [|injection H as <- _ _; now left].
    eapply parents_loop_range; [|exact H]. intros p; apply IH.
  - injection H as <- _ _. assumption.
Qed.

(** *** More fuel never changes a result *)

Definition refines {A} (m1 m2 : M HW A) : Prop :=
  forall h a h' evs, m1 h = Ret a h' evs -> m2 h = Ret a h' evs.

Lemma refines_refl {A} (m : M HW A) : refines m m.
Proof. now intros h a h' evs H. Qed.

Lemma refines_bind {A B} (m1 m2 : M HW A) (f1 f2 : A -> M HW B) :
  refines m1 m2 -> (forall a, refines (f1 a) (f2 a)) ->
  refines (bind m1 f1) (bind m2 f2).
Proof.
  intros Hm Hf h b h' evs H.
  apply bind_Ret_inv in H as (a & h1 & e1 & e2 & H1 & H2 & ->).
  rewrite (bind_Ret _ _ _ _ _ _ (Hm _ _ _ _ H1)).
  now rewrite (Hf _ _ _ _ _ H2).
Qed.

Lemma parents_loop_refines (c1 c2 : Z -> M HW Z) ps :
  (forall p, refines (c1 p) (c2 p)) ->
  refines (parents_loop c1 ps) (parents_loop c2 ps).
Proof.
  intros Hc. induction ps as [|p ps IH]; [apply refines_refl|].
  cbn [parents_loop]. destruct (p =? 0); cbn [negb]; [assumption|].
  apply refines_bind; [apply Hc|]. intros r.
  destruct (r <? 0); [apply refines_refl|assumption].
Qed.

Lemma pmgr_set_mode_recursive_step fuel : forall st dev_id target_mode recurse,
  refines (pmgr_set_mode_recursive adt fuel st dev_id target_mode recurse)
          (pmgr_set_mode_recursive adt (S fuel) st dev_id target_mode recurse).
Proof.
  induction fuel as [|fuel IH]; intros st dev_id target_mode recurse;
    [intros h a h' evs H; discriminate|].
  intros h a h' evs H.
  rewrite pmgr_set_mode_recursive_eq in H |- *. revert h a h' evs H.
  apply refines_bind; [apply refines_refl|]. intros r.
  destruct (r =? 0); [|apply refines_refl].
  destruct recurse; cbn [negb]; [|apply refines_refl].
  apply parents_loop_refines. intros p. apply IH.
Qed.

Lemma pmgr_set_mode_recursive_mono fuel fuel' st dev_id target_mode recurse :
  (fuel <= fuel')%nat ->
  refines (pmgr_set_mode_recursive adt fuel st dev_id target_mode recurse)
          (pmgr_set_mode_recursive adt fuel' st dev_id target_mode recurse).
Proof.
  induction 1 as [|fuel' _ IH]; [apply refines_refl|].
  intros h a h' evs H. now apply pmgr_set_mode_recursive_step, IH.
Qed.

(** *** Termination on tables without cycles *)

(** Every chain of parent links that starts at [dev_id] ends within [n]
    devices. *)
Fixpoint acyclic_within (st : pmgr_state) (n : nat) (dev_id : Z) : bool :=
  match n with
  | O => false
  | S n' =>
      forallb (fun p => (p =? 0) || acyclic_within st n' p)
        (parents_of st dev_id)
  end.

Definition returns {A} (m : M HW A) : Prop :=
  forall h, exists a h' evs, m h = Ret a h' evs.

Lemma own_transition_total st dev_id target_mode :
  tables_loaded st -> returns (own_transition st dev_id target_mode).
Proof.
  intros Hl h.
  destruct (own_transition_eq st dev_id target_mode Hl) as (msgs & _ & ->).
  destruct (pmgr_initialized st =? 0); [eauto|].
  destruct (dev_id =? 0); [eauto|].
  destruct (lookup_device st dev_id) as [d|]; [|eauto].
  destruct (is_virtual d); [eauto|].
  destruct (device_addr adt st d =? 0); [eauto|].
  destruct (pmgr_set_mode_total (device_addr adt st d) target_mode h)
    as (r & h' & evs & -> & _). eauto.
Qed.

Lemma parents_loop_total (call : Z -> M HW Z) ps :
  Forall (fun p => p = 0 \/ returns (call p)) ps ->
  returns (parents_loop call ps).
Proof.
  induction 1 as [|p ps Hp _ IH]; intros h; [cbn; eauto|].
  cbn [parents_loop]. destruct (p =? 0) eqn:E; cbn [negb]; [apply IH|].
  destruct Hp as [->|Hp]; [discriminate|].
  destruct (Hp h) as (r & h1 & e1 & Hc).
  rewrite (bind_Ret _ _ _ _ _ _ Hc).
  destruct (r <? 0); [cbn; eauto|].
  destruct (IH h1) as (r' & h2 & e2 & ->). eauto.
Qed.

Lemma pmgr_set_mode_recursive_total n : forall st dev_id target_mode recurse,
  tables_loaded st -> acyclic_within st n dev_id = true ->
  returns (pmgr_set_mode_recursive adt n st dev_id target_mode recurse).
Proof.
  induction n as [|n IH]; intros st dev_id target_mode recurse Hl Hacyc h;
    [discriminate|].
  rewrite pmgr_set_mode_recursive_eq.
  destruct (own_transition_total st dev_id target_mode Hl h)
    as (r0 & h0 & e0 & Hown).
  rewrite (bind_Ret _ _ _ _ _ _ Hown).
  destruct (r0 =? 0); [|cbn; eauto].
  destruct recurse; cbn [negb]; [|cbn; eauto].
  cbn [acyclic_within] in Hacyc. rewrite forallb_forall in Hacyc.
  destruct (parents_loop_total
              (fun p => pmgr_set_mode_recursive adt n st p target_mode true)
              (parents_of st dev_id)) with (h := h0) as (r & h' & e & ->);
    [|eauto].
  apply List.Forall_forall. intros p Hp. specialize (Hacyc p Hp).
  apply orb_true_iff in Hacyc as [Hz|Hrec]; [left; lia|right].
  now apply IH.
Qed.

(** *** What a successful recursive call has done *)

(** [a] is reached from [dev_id] by following non-zero parent slots. *)
Inductive ancestor (st : pmgr_state) : Z -> Z -> Prop :=
| ancestor_parent dev_id p :
    In p (parents_of st dev_id) -> p <> 0 -> ancestor st dev_id p
| ancestor_step dev_id p a :
    In p (parents_of st dev_id) -> p <> 0 -> ancestor st p a ->
    ancestor st dev_id a.







End Recursion.

(** ** A sample board *)

(** A small blob used to run the code: two register banks, and a table of
    seven domains. SOC (1) is the root; UART (2) and the virtual domain
    VIRT (3) hang below it; DISP (4) names a register bank that does not exist;
    ORPH (5) names a parent that is not in the table; SPI (6) hangs below VIRT
    and UART, I2C (8) below DISP and UART. No domain has id 7. *)
Definition sample_ps_regs : list Z := [0; 0x100; 0; 1; 0x200; 0].

Definition sample_devices : list pmgr_device :=
  [ mk_device 0 0 0 1 0 1 "SOC";
    mk_device 0 1 0 2 0 2 "UART";
    mk_device 0x10 1 0 0 0 3 "VIRT";
    mk_device 0 1 0 0 7 4 "DISP";
    mk_device 0 9 0 3 1 5 "ORPH";
    mk_device 0 3 2 4 1 6 "SPI";
    mk_device 0 4 2 5 1 8 "I2C" ].

Definition null_device : pmgr_device := mk_device 0 0 0 0 0 0 "".

Definition view_of (ws : list Z) (ds : list pmgr_device) : prop_view :=
  mk_view (fun i => nth i ws 0) (fun i => nth i ds null_device).

Definition sample_adt : adt_blob :=
  mk_adt
    (fun path => if String.eqb path "/arm-io/uart0" then 40
                 else if String.eqb path "/arm-io/odd" then 44 else -1)
    (fun path => if String.eqb path "/arm-io/pmgr" then (16, [0; 8; 16; 0; 0; 0; 0; 0])
                 else (-1, [0; 0; 0; 0; 0; 0; 0; 0]))
    (fun node prop_name =>
       if (node =? 16) && String.eqb prop_name "ps-regs" then
         mk_prop (Some (view_of sample_ps_regs [])) 24
       else if (node =? 16) && String.eqb prop_name "devices" then
         mk_prop (Some (view_of [] sample_devices)) 336
       else if (node =? 40) && String.eqb prop_name "clock-gates" then
         mk_prop (Some (view_of [2; 7; 6] [])) 12
       else if (node =? 44) && String.eqb prop_name "clock-gates" then
         mk_prop (Some (view_of [2] [])) 3
       else mk_prop None 0)
    (fun _ _ idx => if idx =? 0 then Some 0x23b700000
                    else if idx =? 1 then Some 0x23d280000 else None).

(** The static variables after pmgr_init on the sample blob. *)
Definition sample_state : pmgr_state :=
  mk_state 1 [0; 8; 16; 0; 0; 0; 0; 0] 16
    (Some (as_u32 (view_of sample_ps_regs []))) 24
    (Some (as_devices (view_of [] sample_devices))) 7.

(** Register files: everything gated and responsive; and the same with
    the register of SOC stuck. *)
Definition hw_idle : regfile := mk_regfile ∅ ∅.
Definition hw_soc_stuck : regfile := mk_regfile ∅ {[ 0x23b700108 ]}.

Example sample_init_state :
  exists h evs, pmgr_init sample_adt pmgr_state0 hw_idle = Ret (0, sample_state) h evs.
Proof. do 2 eexists. vm_compute. reflexivity. Qed.

(** ** The state-transition primitive is a write followed by a bounded poll *)

Section BoundedPoll.

Context {HW : Type} {IO : RegisterIO HW}.

(** What the register interface answers to [n] successive reads of [addr]
    from the hardware state [h]: the values read, in order, and the state the
    hardware is in after the last of them. *)
Fixpoint poll_reads (n : nat) (addr : Z) (h : HW) : list Z * HW :=
  match n with
  | O => ([], h)
  | S n' =>
      let (v, h1) := hw_read32 addr h in
      let (vs, h2) := poll_reads n' addr h1 in
      (v :: vs, h2)
  end.

(** The register value [v] shows ACTUAL_STATE equal to the target. *)
Definition acknowledges (target_mode v : Z) : bool :=
  Z.land v PMGR_PS_ACTUAL =? FIELD_PREP PMGR_PS_ACTUAL target_mode.

(** None of the values shows ACTUAL_STATE equal to the target. *)
Definition never_acknowledged (target_mode : Z) (vs : list Z) : bool :=
  forallb (fun v => negb (acknowledges target_mode v)) vs.

(** The hardware state in which pmgr_set_mode starts to poll: the state
    after the read and the write of its masked write, the value written being
    the value read with TARGET_STATE replaced. *)
Definition after_masked_write (addr target_mode : Z) (h : HW) : HW :=
  hw_write32 addr (with_target (fst (hw_read32 addr h)) target_mode)
    (snd (hw_read32 addr h)).

(** The two register events of the masked write. *)
Definition masked_write_events (addr target_mode : Z) (h : HW) : list event :=
  [EvRead addr (fst (hw_read32 addr h));
   EvWrite addr (with_target (fst (hw_read32 addr h)) target_mode)].

Lemma poll_reads_length n addr : forall h : HW,
  length (fst (poll_reads n addr h)) = n.
Proof.
  induction n as [|n IH]; intros h; [reflexivity|].
  cbn [poll_reads]. destruct (hw_read32 addr h) as [v h1].
  specialize (IH h1). destruct (poll_reads n addr h1) as [vs h2].
  cbn [fst length] in *. now rewrite IH.
Qed.

Lemma poll32_loop_expires n addr mask target : forall h : HW,
  forallb (fun v => negb (Z.land v mask =? target)) (fst (poll_reads n addr h))
  = true ->
  poll32_loop n addr mask target h
  = Ret (-1) (snd (poll_reads n addr h))
      (map (EvRead addr) (fst (poll_reads n addr h))).
Proof.
  induction n as [|n IH]; intros h; [reflexivity|].
  cbn [poll_reads poll32_loop]. unfold bind at 1, read32.
  destruct (hw_read32 addr h) as [v h1].
  specialize (IH h1). destruct (poll_reads n addr h1) as [vs h2].
  cbn [fst snd forallb map] in *.
  intros H. apply andb_true_iff in H as [Hv Hvs].
  apply negb_true_iff in Hv. rewrite Hv, (IH Hvs). reflexivity.
Qed.

Lemma poll32_loop_acknowledged k addr mask target : forall n (h : HW),
  (k < n)%nat ->
  forallb (fun v => negb (Z.land v mask =? target)) (fst (poll_reads k addr h))
  = true ->
  (Z.land (fst (hw_read32 addr (snd (poll_reads k addr h)))) mask =? target)
  = true ->
  poll32_loop n addr mask target h
  = Ret 0 (snd (poll_reads (S k) addr h))
      (map (EvRead addr) (fst (poll_reads (S k) addr h))).
Proof.
  induction k as [|k IH]; intros n h Hk; (destruct n as [|n]; [lia|]).
  - cbn [poll_reads poll32_loop fst snd]. intros _.
    unfold bind at 1, read32.
    destruct (hw_read32 addr h) as [v h1]. cbn [fst snd map].
    intros ->. reflexivity.
  - cbn [poll32_loop]. change (poll_reads (S (S k)) addr h)
      with (let (v, h1) := hw_read32 addr h in
            let (vs, h2) := poll_reads (S k) addr h1 in (v :: vs, h2)).
    change (poll_reads (S k) addr h)
      with (let (v, h1) := hw_read32 addr h in
            let (vs, h2) := poll_reads k addr h1 in (v :: vs, h2)).
    unfold bind at 1, read32.
    destruct (hw_read32 addr h) as [v h1].
    specialize (IH n h1 ltac:(lia)).
    destruct (poll_reads k addr h1) as [vs h2] eqn:Ek.
    cbn [fst snd forallb] in *.
    intros H Hack. apply andb_true_iff in H as [Hv Hvs].
    apply negb_true_iff in Hv. rewrite Hv, (IH Hvs Hack).
    destruct (poll_reads (S k) addr h1) as [ws h3]. reflexivity.
Qed.

(** Within [n] reads, either none acknowledges or there is a first one that
    does. *)
Lemma first_acknowledgement n addr mask target : forall h : HW,
  forallb (fun v => negb (Z.land v mask =? target)) (fst (poll_reads n addr h))
  = false ->
  exists k, (k < n)%nat
    /\ forallb (fun v => negb (Z.land v mask =? target))
         (fst (poll_reads k addr h)) = true
    /\ (Z.land (fst (hw_read32 addr (snd (poll_reads k addr h)))) mask =? target)
       = true.
Proof.
  induction n as [|n IH]; intros h; [discriminate|].
  cbn [poll_reads].
  destruct (hw_read32 addr h) as [v h1] eqn:Er.
  specialize (IH h1). destruct (poll_reads n addr h1) as [vs h2].
  cbn [fst forallb]. intros H.
  destruct (Z.land v mask =? target) eqn:Ev.
  - exists O. split; [lia|]. cbn [poll_reads fst snd forallb].
    rewrite Er. now split.
  - cbn [negb andb] in H. destruct (IH H) as (k & Hk & Hmiss & Hack).
    exists (S k). split; [lia|]. cbn [poll_reads]. rewrite Er.
    destruct (poll_reads k addr h1) as [ws h3]. cbn [fst snd forallb] in *.
    rewrite Ev. now split.
Qed.

(** pmgr_set_mode is its masked write followed by the poll loop, started in
    the state the write leaves. *)
Lemma pmgr_set_mode_unfold addr target_mode (h : HW) :
  pmgr_set_mode addr target_mode h
  = match poll32_loop (Z.to_nat PMGR_POLL_TIMEOUT) addr PMGR_PS_ACTUAL
            (FIELD_PREP PMGR_PS_ACTUAL target_mode)
            (after_masked_write addr target_mode h) with
    | Ret r h1 polls =>
        if r <? 0 then
          Ret (-1) (snd (hw_read32 addr h1))
            (masked_write_events addr target_mode h ++ polls
             ++ [EvRead addr (fst (hw_read32 addr h1));
                 EvPrint (MsgPollExpired target_mode addr
                            (fst (hw_read32 addr h1)))])
        else Ret 0 h1 (masked_write_events addr target_mode h ++ polls)
    | Abort x => Abort x
    end.
Proof.
  unfold pmgr_set_mode, mask32, poll32, after_masked_write,
    masked_write_events, with_target.
  generalize (Z.to_nat PMGR_POLL_TIMEOUT) as n. intros n.
  unfold bind at 1 2, read32 at 1, write32.
  destruct (hw_read32 addr h) as [v0 h1]. cbn [app fst snd].
  unfold bind at 1.
  destruct (poll32_loop n addr PMGR_PS_ACTUAL _ _) as [r h2 polls|x];
    [|reflexivity].
  destruct (r <? 0).
  - unfold bind, read32, printf, ret.
    destruct (hw_read32 addr h2) as [v h3]. cbn [app fst snd].
    reflexivity.
  - unfold ret. now rewrite app_nil_r.
Qed.

(** The masked write leaves every bit outside TARGET_STATE as it was read. *)
Lemma with_target_rest v target_mode :
  Z.land (with_target v target_mode) (Z.lxor 0xffffffff PMGR_PS_TARGET)
  = Z.land v (Z.lxor 0xffffffff PMGR_PS_TARGET).
Proof.
  unfold with_target, FIELD_PREP.
  rewrite Z.land_lor_distr_l, <- !Z.land_assoc, Z.land_diag.
  replace (Z.land PMGR_PS_TARGET (Z.lxor 0xffffffff PMGR_PS_TARGET)) with 0
    by reflexivity.
  now rewrite Z.land_0_r, Z.lor_0_r.
Qed.

End BoundedPoll.

(** C7. pmgr_set_mode first rewrites the TARGET_STATE field of the
    register: it reads the register, and writes back the value read with
    TARGET_STATE replaced by the target and every other bit kept. It then
    polls the register, starting in the hardware state that write leaves,
    under a budget of PMGR_POLL_TIMEOUT = 10000 reads. It always returns, with
    0 or -1. If the first read that shows ACTUAL_STATE equal to the target is
    read number k + 1 <= 10000, it returns 0 right after that read, in the
    hardware state that read leaves, having made exactly those k + 1 polling
    reads. If none of the 10000 reads shows it, it makes exactly those 10000
    polling reads, reads the register once more for the diagnostic it prints,
    and returns -1. It returns -1 in no other case. *)
Theorem pmgr_set_mode_bounded_poll {HW : Type} {IO : RegisterIO HW}
    (addr target_mode : Z) (h : HW) :
  PMGR_POLL_TIMEOUT = 10000
  /\ Z.land (with_target (fst (hw_read32 addr h)) target_mode) PMGR_PS_TARGET
     = FIELD_PREP PMGR_PS_TARGET target_mode
  /\ Z.land (with_target (fst (hw_read32 addr h)) target_mode)
       (Z.lxor 0xffffffff PMGR_PS_TARGET)
     = Z.land (fst (hw_read32 addr h)) (Z.lxor 0xffffffff PMGR_PS_TARGET)
  /\ (exists r h' evs,
        pmgr_set_mode addr target_mode h = Ret r h' evs
        /\ (r = 0 \/ r = -1)
        /\ (r = -1 <->
            never_acknowledged target_mode
              (fst (poll_reads (Z.to_nat PMGR_POLL_TIMEOUT) addr
                      (after_masked_write addr target_mode h))) = true))
  /\ (forall k,
        (k < Z.to_nat PMGR_POLL_TIMEOUT)%nat ->
        never_acknowledged target_mode
          (fst (poll_reads k addr (after_masked_write addr target_mode h)))
        = true ->
        acknowledges target_mode
          (fst (hw_read32 addr
                  (snd (poll_reads k addr
                          (after_masked_write addr target_mode h)))))
        = true ->
        pmgr_set_mode addr target_mode h
        = Ret 0
            (snd (poll_reads (S k) addr (after_masked_write addr target_mode h)))
            (masked_write_events addr target_mode h
             ++ map (EvRead addr)
                  (fst (poll_reads (S k) addr
                          (after_masked_write addr target_mode h)))))
  /\ (never_acknowledged target_mode
        (fst (poll_reads (Z.to_nat PMGR_POLL_TIMEOUT) addr
                (after_masked_write addr target_mode h))) = true ->
      pmgr_set_mode addr target_mode h
      = Ret (-1)
          (snd (hw_read32 addr
                  (snd (poll_reads (Z.to_nat PMGR_POLL_TIMEOUT) addr
                          (after_masked_write addr target_mode h)))))
          (masked_write_events addr target_mode h
           ++ map (EvRead addr)
                (fst (poll_reads (Z.to_nat PMGR_POLL_TIMEOUT) addr
                        (after_masked_write addr target_mode h)))
           ++ [EvRead addr
                 (fst (hw_read32 addr
                         (snd (poll_reads (Z.to_nat PMGR_POLL_TIMEOUT) addr
                                 (after_masked_write addr target_mode h)))));
               EvPrint
                 (MsgPollExpired target_mode addr
                    (fst (hw_read32 addr
                            (snd (poll_reads (Z.to_nat PMGR_POLL_TIMEOUT) addr
                                    (after_masked_write addr target_mode
                                       h))))))])
      /\ length (fst (poll_reads (Z.to_nat PMGR_POLL_TIMEOUT) addr
                        (after_masked_write addr target_mode h)))
         = Z.to_nat PMGR_POLL_TIMEOUT).
Proof.
  split; [reflexivity|]. split; [apply with_target_field|].
  split; [apply with_target_rest|].
  rewrite pmgr_set_mode_unfold. unfold never_acknowledged, acknowledges.
  generalize (Z.to_nat PMGR_POLL_TIMEOUT) as n. intros n.
  set (h0 := after_masked_write addr target_mode h).
  assert (Hhit : forall k,
            (k < n)%nat ->
            forallb (fun v => negb (Z.land v PMGR_PS_ACTUAL
                                    =? FIELD_PREP PMGR_PS_ACTUAL target_mode))
              (fst (poll_reads k addr h0)) = true ->
            (Z.land (fst (hw_read32 addr (snd (poll_reads k addr h0))))
               PMGR_PS_ACTUAL =? FIELD_PREP PMGR_PS_ACTUAL target_mode) = true ->
            match poll32_loop n addr PMGR_PS_ACTUAL
                    (FIELD_PREP PMGR_PS_ACTUAL target_mode) h0 with
            | Ret r h1 polls =>
                if r <? 0 then
                  Ret (-1) (snd (hw_read32 addr h1))
                    (masked_write_events addr target_mode h ++ polls
                     ++ [EvRead addr (fst (hw_read32 addr h1));
                         EvPrint (MsgPollExpired target_mode addr
                                    (fst (hw_read32 addr h1)))])
                else Ret 0 h1 (masked_write_events addr target_mode h ++ polls)
            | Abort x => Abort x
            end
            = Ret 0 (snd (poll_reads (S k) addr h0))
                (masked_write_events addr target_mode h
                 ++ map (EvRead addr) (fst (poll_reads (S k) addr h0)))).
  { intros k Hk Hmiss Hack.
    now rewrite (poll32_loop_acknowledged k addr _ _ n h0 Hk Hmiss Hack). }
  split; [|split; [exact Hhit|]].
  - destruct (forallb _ (fst (poll_reads n addr h0))) eqn:E.
    + rewrite (poll32_loop_expires n addr _ _ h0 E).
      change (-1 <? 0) with true. cbv iota.
      do 3 eexists. split; [reflexivity|]. split; [now right|easy].
    + destruct (first_acknowledgement n addr _ _ h0 E) as (k & Hk & Hmiss & Hack).
      rewrite (Hhit k Hk Hmiss Hack).
      do 3 eexists. split; [reflexivity|]. split; [now left|easy].
  - intros E. rewrite (poll32_loop_expires n addr _ _ h0 E).
    split; [reflexivity|apply poll_reads_length].
Qed.

(** On the sample board with the register of SOC stuck, the write reaches
    the register (TARGET_STATE is ACTIVE afterwards), none of the 10000 polls
    shows ACTUAL_STATE following, and the call returns -1 after 10000 polling
    reads and the read of the diagnostic. On the responsive board the first
    poll acknowledges and the call returns 0 after that one poll. *)
Lemma pmgr_set_mode_bounded_poll_witness :
  (exists h' evs,
     pmgr_set_mode 0x23b700108 PMGR_PS_ACTIVE hw_soc_stuck = Ret (-1) h' evs
     /\ regfile_peek h' 0x23b700108 = 0xf
     /\ Z.of_nat (length (List.filter is_io evs)) = 10003)
  /\ (exists h',
        pmgr_set_mode 0x23b700108 PMGR_PS_ACTIVE hw_idle
        = Ret 0 h' [EvRead 0x23b700108 0; EvWrite 0x23b700108 0xf;
                    EvRead 0x23b700108 0xff]
        /\ regfile_peek h' 0x23b700108 = 0xff).
Proof.
  split.
  - destruct (pmgr_set_mode_bounded_poll 0x23b700108 PMGR_PS_ACTIVE hw_soc_stuck)
      as (_ & _ & _ & _ & _ & Hexpires).
    assert (Hnever : never_acknowledged PMGR_PS_ACTIVE
              (fst (poll_reads (Z.to_nat PMGR_POLL_TIMEOUT) 0x23b700108
                      (after_masked_write 0x23b700108 PMGR_PS_ACTIVE
                         hw_soc_stuck))) = true)
      by (vm_compute; reflexivity).
    destruct (Hexpires Hnever) as [Hrun _].
    do 2 eexists. split; [exact Hrun|].
    split; vm_compute; reflexivity.
  - destruct (pmgr_set_mode_bounded_poll 0x23b700108 PMGR_PS_ACTIVE hw_idle)
      as (_ & _ & _ & _ & Hhit & _).
    eexists. split.
    + exact (Hhit O ltac:(unfold PMGR_POLL_TIMEOUT; lia) eq_refl eq_refl).
    + vm_compute. reflexivity.
Defined.

(** On the sample board: a responsive register acknowledges at the first
    poll; a stuck one exhausts the budget (one read and one write, 10000
    polls, the read of the diagnostic and the diagnostic). *)
Example pmgr_set_mode_responsive :
  exists h, pmgr_set_mode 0x23b700108 PMGR_PS_ACTIVE hw_idle =
    Ret 0 h [EvRead 0x23b700108 0; EvWrite 0x23b700108 0xf;
             EvRead 0x23b700108 0xff].
Proof. eexists. vm_compute. reflexivity. Qed.

Example pmgr_set_mode_stuck :
  match pmgr_set_mode 0x23b700108 PMGR_PS_ACTIVE hw_soc_stuck with
  | Ret r h evs =>
      r = -1 /\ Z.of_nat (length evs) = 10004
      /\ last evs
         = Some (EvPrint (MsgPollExpired PMGR_PS_ACTIVE 0x23b700108 0xf))
  | Abort _ => False
  end.
Proof. vm_compute. repeat split. Qed.

(** ** Calls that fail before any register is touched *)

Section EarlyFailures.

Context {HW : Type} {IO : RegisterIO HW}.
Variable adt : adt_blob.


Lemma uninitialized_call fuel st dev_id target_mode recurse (h : HW) :
  pmgr_initialized st = 0 ->
  pmgr_set_mode_recursive adt (S fuel) st dev_id target_mode recurse h
  = Ret (-1) h [EvPrint MsgBeforeInit].
Proof. intros Hi. cbn [pmgr_set_mode_recursive]. now rewrite Hi. Qed.



End EarlyFailures.




(** ** Id 0 and unknown ids *)

(** C4, as the code has it. In an initialised engine, a call with id 0 and a
    call with a non-zero id that is not in the device table fail the same way:
    both return -1, print nothing and leave every register alone. The code
    has one failure value; nothing tells the two cases apart. *)
Theorem invalid_and_unknown_id_fail_alike {HW : Type} {IO : RegisterIO HW}
    (adt : adt_blob) (fuel : nat) (st : pmgr_state)
    (dev_id target_mode : Z) (recurse : bool) (h : HW) :
  pmgr_initialized st <> 0 ->
  is_Some (pmgr_devices st) ->
  dev_id = 0 \/ lookup_device st dev_id = None ->
  pmgr_set_mode_recursive adt (S fuel) st dev_id target_mode recurse h
  = Ret (-1) h [].
Proof.
  intros Hi Hd Hid. cbn [pmgr_set_mode_recursive].
  destruct (pmgr_initialized st =? 0) eqn:Ei; [lia|].
  destruct (dev_id =? 0) eqn:Ez; [reflexivity|].
  destruct Hid as [->|Hnone]; [discriminate|].
  rewrite (bind_Ret_nil _ _ _ _ _ (pmgr_find_device_pure st dev_id h Hd)).
  now rewrite Hnone.
Qed.

Lemma invalid_and_unknown_id_fail_alike_witness :
  pmgr_set_mode_recursive sample_adt 4 sample_state 0 PMGR_PS_ACTIVE true hw_idle
    = Ret (-1) hw_idle []
  /\ pmgr_set_mode_recursive sample_adt 4 sample_state 7 PMGR_PS_ACTIVE true hw_idle
    = Ret (-1) hw_idle [].
Proof.
  split;
    apply (invalid_and_unknown_id_fail_alike sample_adt 3 sample_state);
    solve [ discriminate | eexists; reflexivity | now left | now right ].
Defined.

(** C4 as stated fails: on the sample board id 7 is not in the table, and
    the call with id 7 yields exactly what the call with id 0 yields, so the
    caller cannot distinguish an invalid id from an unknown device. *)
Lemma invalid_and_unknown_id_not_distinct :
  7 <> 0
  /\ lookup_device sample_state 7 = None
  /\ pmgr_set_mode_recursive sample_adt 4 sample_state 0 PMGR_PS_ACTIVE true hw_idle
     = Ret (-1) hw_idle []
  /\ pmgr_set_mode_recursive sample_adt 4 sample_state 7 PMGR_PS_ACTIVE true hw_idle
     = pmgr_set_mode_recursive sample_adt 4 sample_state 0 PMGR_PS_ACTIVE true hw_idle.
Proof. repeat split; try discriminate; vm_compute; reflexivity. Qed.

(** ** Address resolution *)

(** The state with another table behind [pmgr_ps_regs]. *)
Definition set_ps_regs (st : pmgr_state) (ps : nat -> Z) : pmgr_state :=
  mk_state (pmgr_initialized st) (pmgr_path st) (pmgr_offset st)
    (Some ps) (pmgr_ps_regs_len st) (pmgr_devices st) (pmgr_devices_len st).

(** C8, as the code has it. With a ps-regs table of whole 12-byte entries,
    pmgr_get_psreg always returns; it fails (returns 0, with a diagnostic)
    when the index is out of bounds, without looking at the table, and when
    the blob reader has no base address for the bank; otherwise it returns
    base + byte_offset (modulo 2^64) and its result depends on no word behind
    the end of the table. pmgr_device_get_addr fails exactly when the bank
    does and otherwise returns bank + 8 * addr_offset (modulo 2^64); it does
    not look at the flags of the device. The VIRTUAL flag is tested by the
    callers: pmgr_set_mode_recursive, and pmgr_init for the device it scans,
    resolve no address for a virtual device. *)
Theorem address_resolution_checked {HW : Type} {IO : RegisterIO HW}
    (adt : adt_blob) (st : pmgr_state) (ps : nat -> Z) (h : HW) :
  pmgr_ps_regs st = Some ps ->
  pmgr_ps_regs_len st mod 12 = 0 ->
  (forall idx,
     idx * 12 >= pmgr_ps_regs_len st ->
     pmgr_get_psreg adt st idx h = Ret 0 h [EvPrint (MsgPsregOutOfBounds idx)])
  /\ (forall idx,
        0 <= idx -> idx * 12 < pmgr_ps_regs_len st ->
        pmgr_get_psreg adt st idx h =
          match adt_get_reg adt (pmgr_path st) "reg" (ps (Z.to_nat (3 * idx))) with
          | Some base => Ret (u64 (base + ps (Z.to_nat (3 * idx + 1)))) h []
          | None => Ret 0 h [EvPrint MsgRegsError]
          end
        /\ forall ps' : nat -> Z,
             (forall i, 4 * Z.of_nat i + 4 <= pmgr_ps_regs_len st -> ps' i = ps i) ->
             pmgr_get_psreg adt (set_ps_regs st ps') idx h
             = pmgr_get_psreg adt st idx h)
  /\ (forall d bank msgs,
        pmgr_get_psreg adt st (psreg_idx d) h = Ret bank h msgs ->
        pmgr_device_get_addr adt st d h
        = Ret (if bank =? 0 then 0 else u64 (bank + 8 * addr_offset d)) h msgs)
  /\ (forall dev_id d target_mode,
        pmgr_initialized st <> 0 -> is_Some (pmgr_devices st) -> dev_id <> 0 ->
        lookup_device st dev_id = Some d -> is_virtual d = true ->
        pmgr_set_mode_recursive adt 1 st dev_id target_mode false h = Ret 0 h [])
  /\ (forall d, is_virtual d = true -> init_device adt st d h = Ret tt h []).
Proof.
  intros Hps Hmod. repeat split.
  - intros idx Hidx. unfold pmgr_get_psreg.
    destruct (idx * 12 >=? pmgr_ps_regs_len st) eqn:E; [reflexivity|lia].
  - unfold pmgr_get_psreg.
    destruct (idx * 12 >=? pmgr_ps_regs_len st) eqn:E; [lia|].
    rewrite Hps. unfold deref. rewrite !bind_ret_l.
    now destruct (adt_get_reg adt (pmgr_path st) "reg" (ps (Z.to_nat (3 * idx)))).
  - intros ps' Hagree. unfold pmgr_get_psreg, set_ps_regs. cbn.
    destruct (idx * 12 >=? pmgr_ps_regs_len st) eqn:E; [reflexivity|].
    rewrite Hps. unfold deref. rewrite !bind_ret_l.
    apply Z.mod_divide in Hmod; [|lia]. destruct Hmod as [k Hk].
    rewrite !Hagree by lia. reflexivity.
  - intros d bank msgs Hbank. unfold pmgr_device_get_addr.
    rewrite (bind_Ret _ _ _ _ _ _ Hbank).
    rewrite Z.shiftl_mul_pow2 by lia. change (2 ^ 3) with 8.
    rewrite (Z.mul_comm (addr_offset d)).
    destruct (bank =? 0); cbn; now rewrite app_nil_r.
  - intros dev_id d target_mode Hi Hd Hnz Hl Hv. cbn [pmgr_set_mode_recursive].
    destruct (pmgr_initialized st =? 0) eqn:Ei; [lia|].
    destruct (dev_id =? 0) eqn:Ez; [lia|].
    rewrite (bind_Ret_nil _ _ _ _ _ (pmgr_find_device_pure st dev_id h Hd)).
    rewrite Hl. unfold is_virtual in Hv.
    destruct (Z.land (flags d) PMGR_FLAG_VIRTUAL =? 0); [discriminate|reflexivity].
  - intros d Hv. unfold init_device. unfold is_virtual in Hv. now rewrite Hv.
Qed.

Lemma address_resolution_checked_witness :
  pmgr_get_psreg sample_adt sample_state 2 hw_idle
    = Ret 0 hw_idle [EvPrint (MsgPsregOutOfBounds 2)]
  /\ pmgr_get_psreg sample_adt sample_state 1 hw_idle
     = Ret 0x23d280200 hw_idle []
  /\ pmgr_device_get_addr sample_adt sample_state
       (mk_device 0 3 2 4 1 6 "SPI") hw_idle
     = Ret 0x23d280220 hw_idle [].
Proof.
  destruct (address_resolution_checked sample_adt sample_state
              (as_u32 (view_of sample_ps_regs [])) hw_idle eq_refl eq_refl)
    as (Hout & Hin & Hdev & _ & _).
  split; [apply Hout; vm_compute; discriminate|].
  assert (Hbank : pmgr_get_psreg sample_adt sample_state 1 hw_idle
                  = Ret 0x23d280200 hw_idle []).
  { rewrite (proj1 (Hin 1 ltac:(lia) ltac:(reflexivity))). reflexivity. }
  split; [exact Hbank|].
  exact (Hdev (mk_device 0 3 2 4 1 6 "SPI") _ _ Hbank).
Defined.

(** C8 as stated fails: pmgr_device_get_addr does not fail for a virtual
    device. For VIRT of the sample board, whose bank resolves, it returns the
    address that the bank index and the offset of the record give. *)
Lemma device_address_of_virtual_device :
  is_virtual (mk_device 0x10 1 0 0 0 3 "VIRT") = true
  /\ lookup_device sample_state 3 = Some (mk_device 0x10 1 0 0 0 3 "VIRT")
  /\ pmgr_device_get_addr sample_adt sample_state
       (mk_device 0x10 1 0 0 0 3 "VIRT") hw_idle
     = Ret 0x23b700100 hw_idle []
  /\ 0x23b700100 <> 0.
Proof. repeat split. discriminate. Qed.

(** The bounds check of pmgr_get_psreg compares against the length in
    bytes: with a ps-regs property of 4 bytes, index 0 passes it and the
    result is read from the word behind the end of the property. *)
Example bank_bounds_check_counts_bytes :
  let short ws :=
    mk_state 1 [0; 8; 16; 0; 0; 0; 0; 0] 16
      (Some (as_u32 (view_of ws []))) 4 None 0 in
  pmgr_get_psreg sample_adt (short [0; 0x100]) 0 hw_idle
    = Ret 0x23b700100 hw_idle []
  /\ pmgr_get_psreg sample_adt (short [0; 0x200]) 0 hw_idle
    = Ret 0x23b700200 hw_idle [].
Proof. split; reflexivity. Qed.

(** ** Disabling touches one register *)

(** Hardware whose registers can be observed without side effect
    ([peek]), and where an access to one address leaves the registers at the
    other addresses as they are. *)
Class RegisterFile (HW : Type) {IO : RegisterIO HW} : Type := {
  peek : HW -> Z -> Z;
  read_frame : forall a h b, b <> a -> peek (snd (hw_read32 a h)) b = peek h b;
  write_frame : forall a v h b, b <> a -> peek (hw_write32 a v h) b = peek h b
}.

#[export] Instance regfile_file : RegisterFile regfile.
Proof.
  refine {| peek := regfile_peek |}.
  - reflexivity.
  - intros a v h b Hb. unfold regfile_peek. cbn.
    now rewrite lookup_insert_ne by congruence.
Defined.

Section Frame.

Context {HW : Type} {IO : RegisterIO HW} {RF : RegisterFile HW}.
Variable adt : adt_blob.

Lemma poll32_loop_frame n addr mask target : forall (h : HW) r h' evs b,
  poll32_loop n addr mask target h = Ret r h' evs -> b <> addr ->
  peek h' b = peek h b.
Proof.
  induction n as [|n IH]; intros h r h' evs b H Hb.
  - now injection H as _ <- _.
  - cbn [poll32_loop] in H. unfold bind at 1, read32 in H.
    pose proof (read_frame addr h b Hb) as Hr.
    destruct (hw_read32 addr h) as [v h1]. cbn [snd] in Hr.
    destruct (Z.land v mask =? target).
    + injection H as _ <- _. exact Hr.
    + destruct (poll32_loop n addr mask target h1) as [r' h2 e2|x] eqn:Hp;
        [|discriminate].
      injection H as _ <- _. rewrite <- Hr. eapply IH; eassumption.
Qed.

Lemma pmgr_set_mode_frame addr target_mode (h : HW) r h' evs b :
  pmgr_set_mode addr target_mode h = Ret r h' evs -> b <> addr ->
  peek h' b = peek h b.
Proof.
  unfold pmgr_set_mode, mask32, poll32. intros H Hb.
  apply bind_Ret_inv in H as ([] & h2 & e1 & e2 & Hmask & H & _).
  apply bind_Ret_inv in H as (rp & h3 & e3 & e4 & Hpoll & H & _).
  assert (H2 : peek h2 b = peek h b).
  { unfold bind, read32, write32 in Hmask.
    pose proof (read_frame addr h b Hb) as Hr.
    destruct (hw_read32 addr h) as [v h1]. cbn [snd] in Hr.
    injection Hmask as <- _. now rewrite write_frame. }
  assert (H3 : peek h3 b = peek h b).
  { rewrite <- H2. eapply poll32_loop_frame; eassumption. }
  destruct (rp <? 0); [|now injection H as _ <- _].
  unfold bind, read32, printf, ret in H.
  pose proof (read_frame addr h3 b Hb) as Hr.
  destruct (hw_read32 addr h3) as [v h4]. cbn [snd] in Hr.
  injection H as _ <- _. congruence.
Qed.

End Frame.

(** C2. pmgr_clock_disable always returns, and the call at recursion depth
    one already gives its result: no call into a parent slot is made. Every
    register access it makes goes to the control register of the device
    itself, at most one of them is a write, and on hardware whose registers
    are independent every register at another address, those of the parents
    and of all other ancestors included, holds afterwards what it held
    before. *)
Theorem pmgr_clock_disable_frame {HW : Type} {IO : RegisterIO HW}
    {RF : RegisterFile HW} (adt : adt_blob) (fuel : nat) (st : pmgr_state)
    (dev_id : Z) (h : HW) :
  tables_loaded st ->
  exists r h' evs,
    pmgr_clock_disable adt (S fuel) st dev_id h = Ret r h' evs
    /\ pmgr_clock_disable adt 1 st dev_id h = Ret r h' evs
    /\ (forall e, In e evs -> is_io e = true ->
          exists d, lookup_device st dev_id = Some d /\ is_virtual d = false
                    /\ io_addr e = Some (device_addr adt st d))
    /\ (length (List.filter is_write evs) <= 1)%nat
    /\ (forall b,
          (forall d, lookup_device st dev_id = Some d -> b <> device_addr adt st d) ->
          peek h' b = peek h b)
    /\ (forall d a da,
          lookup_device st dev_id = Some d ->
          ancestor st dev_id a -> lookup_device st a = Some da ->
          device_addr adt st da <> device_addr adt st d ->
          peek h' (device_addr adt st da) = peek h (device_addr adt st da)).
Proof.
  intros Hl.
  assert (Hdepth : pmgr_clock_disable adt (S fuel) st dev_id h
                   = own_transition adt st dev_id PMGR_PS_PWRGATE h) by reflexivity.
  assert (Hone : pmgr_clock_disable adt 1 st dev_id h
                 = own_transition adt st dev_id PMGR_PS_PWRGATE h) by reflexivity.
  rewrite Hdepth, Hone.
  destruct (own_transition_eq adt st dev_id PMGR_PS_PWRGATE Hl)
    as (msgs & Hmsgs & Heq).
  rewrite Heq. clear Hdepth Hone Heq.
  assert (Hquiet : forall (r : Z) (l : list event),
            Forall (fun e => is_io e = false) l ->
            exists r' h' evs,
              Ret r h l = Ret r' h' evs
              /\ Ret r h l = Ret r' h' evs
              /\ (forall e, In e evs -> is_io e = true ->
                    exists d, lookup_device st dev_id = Some d
                              /\ is_virtual d = false
                              /\ io_addr e = Some (device_addr adt st d))
              /\ (length (List.filter is_write evs) <= 1)%nat
              /\ (forall b,
                    (forall d, lookup_device st dev_id = Some d ->
                               b <> device_addr adt st d) ->
                    peek h' b = peek h b)
              /\ (forall d a da,
                    lookup_device st dev_id = Some d ->
                    ancestor st dev_id a -> lookup_device st a = Some da ->
                    device_addr adt st da <> device_addr adt st d ->
                    peek h' (device_addr adt st da)
                    = peek h (device_addr adt st da))).
  { intros r l Hq. exists r, h, l. repeat split; trivial.
    - intros e He Hio. rewrite List.Forall_forall in Hq.
      rewrite (Hq e He) in Hio. discriminate.
    - induction Hq as [|e l' He _ IH]; [cbn; lia|].
      cbn. destruct e; try discriminate. exact IH. }
  destruct (pmgr_initialized st =? 0); [apply Hquiet; now repeat constructor|].
  destruct (dev_id =? 0); [apply Hquiet; constructor|].
  destruct (lookup_device st dev_id) as [d|] eqn:Hd; [|apply Hquiet; constructor].
  destruct (is_virtual d) eqn:Hv; [apply Hquiet; constructor|].
  destruct (device_addr adt st d =? 0); [apply Hquiet; assumption|].
  clear Hquiet.
  destruct (pmgr_set_mode_total (device_addr adt st d) PMGR_PS_PWRGATE h)
    as (r & h' & evs & Hrun & _).
  exists r, h', evs. split; [exact Hrun|]. split; [exact Hrun|].
  destruct (pmgr_set_mode_io _ _ _ _ _ _ Hrun) as [Hio Hw].
  repeat split.
  - intros e He Hioe. exists d. repeat split; trivial.
    rewrite List.Forall_forall in Hio. now apply Hio.
  - rewrite Hw. cbn. lia.
  - intros b Hb. eapply pmgr_set_mode_frame; [exact Hrun|]. now apply Hb.
  - intros d' a da [= <-] _ _ Hne.
    eapply pmgr_set_mode_frame; [exact Hrun|exact Hne].
Qed.

(** SOC and UART running. *)
Definition hw_running : regfile :=
  mk_regfile {[ 0x23b700108 := 0xff; 0x23b700110 := 0xff ]} ∅.

Lemma pmgr_clock_disable_frame_witness :
  exists h' evs,
    pmgr_clock_disable sample_adt 3 sample_state 2 hw_running = Ret 0 h' evs
    /\ List.filter is_write evs = [EvWrite 0x23b700110 0xf0]
    /\ peek h' 0x23b700108 = 0xff.
Proof.
  destruct (pmgr_clock_disable_frame sample_adt 2 sample_state 2 hw_running)
    as (r & h' & evs & Hrun & _ & _ & _ & Hframe & _).
  { split; eexists; reflexivity. }
  exists h', evs.
  assert (Hval : pmgr_clock_disable sample_adt 3 sample_state 2 hw_running
                 = Ret r h' evs
                 -> r = 0 /\ List.filter is_write evs = [EvWrite 0x23b700110 0xf0]).
  { vm_compute. intros [= <- _ <-]. now split. }
  destruct (Hval Hrun) as [-> Hw].
  split; [exact Hrun|]. split; [exact Hw|].
  rewrite (Hframe 0x23b700108); [reflexivity|].
  intros d Hd. vm_compute in Hd. injection Hd as <-. vm_compute. discriminate.
Defined.

(** ** Recursion: order, short-circuit, transitive activation *)

Section Cascade.

Context {HW : Type} {IO : RegisterIO HW}.
Variable adt : adt_blob.

(** What the loop of pmgr_set_mode_recursive does for one parent slot
    holding [p]: nothing for an empty slot, the recursive call otherwise. *)
Definition parent_slot (fuel : nat) (st : pmgr_state) (target_mode p : Z)
  : M HW Z :=
  if p =? 0 then ret 0
  else pmgr_set_mode_recursive adt fuel st p target_mode true.

Lemma parents_loop_two (call : Z -> M HW Z) p0 p1 (h : HW) :
  parents_loop call [p0; p1] h =
  bind (if p0 =? 0 then ret 0 else call p0)
    (fun r0 =>
       if r0 <? 0 then ret r0
       else
         bind (if p1 =? 0 then ret 0 else call p1)
           (fun r1 => if r1 <? 0 then ret r1 else ret 0)) h.
Proof.
  cbn [parents_loop].
  assert (Hlast : forall h1,
            (if negb (p1 =? 0)
             then r <- call p1;; (if r <? 0 then ret r else ret 0)
             else ret 0) h1
            = bind (if p1 =? 0 then ret 0 else call p1)
                (fun r1 => if r1 <? 0 then ret r1 else ret 0) h1).
  { intros h1. destruct (p1 =? 0); cbn [negb]; [now rewrite bind_ret_l|reflexivity]. }
  destruct (p0 =? 0); cbn [negb].
  - rewrite bind_ret_l. cbn [Z.ltb Z.compare]. apply Hlast.
  - apply bind_ext. intros r0 h1. destruct (r0 <? 0); [reflexivity|apply Hlast].
Qed.


(** A call that recurses, in terms of the own transition and the two
    parent slots. *)
Lemma pmgr_set_mode_recursive_slots fuel st dev_id d target_mode (h : HW) :
  lookup_device st dev_id = Some d ->
  pmgr_set_mode_recursive adt (S fuel) st dev_id target_mode true h =
  bind (own_transition adt st dev_id target_mode)
    (fun r =>
       if r =? 0 then
         bind (parent_slot fuel st target_mode (parent d 0))
           (fun r0 =>
              if r0 <? 0 then ret r0
              else
                bind (parent_slot fuel st target_mode (parent d 1))
                  (fun r1 => if r1 <? 0 then ret r1 else ret 0))
       else ret r) h.
Proof.
  intros Hd. rewrite pmgr_set_mode_recursive_eq. apply bind_ext.
  intros r h1. destruct (r =? 0); [|reflexivity]. cbn [negb].
  unfold parents_of. rewrite Hd. apply parents_loop_two.
Qed.

End Cascade.

(** C6. In a recursive call whose own transition has succeeded, the parent
    slots are visited in the order 0, 1, and the first recursive call that
    fails ends the call: its negative result is returned, the hardware is left
    in the state that failing call ended in, and the events are those of the
    own transition and of the calls made so far, in that order. Slot 1 is not
    attempted after a failure of slot 0, and nothing is undone. *)
Theorem recursion_stops_at_first_failure {HW : Type} {IO : RegisterIO HW}
    (adt : adt_blob) (fuel : nat) (st : pmgr_state) (dev_id : Z)
    (d : pmgr_device) (target_mode : Z) (h h0 : HW) (e0 : list event) :
  lookup_device st dev_id = Some d ->
  pmgr_set_mode_recursive adt 1 st dev_id target_mode false h = Ret 0 h0 e0 ->
  (forall r h1 e1,
     parent d 0 <> 0 ->
     pmgr_set_mode_recursive adt fuel st (parent d 0) target_mode true h0
       = Ret r h1 e1 ->
     r < 0 ->
     pmgr_set_mode_recursive adt (S fuel) st dev_id target_mode true h
       = Ret r h1 (e0 ++ e1))
  /\ (forall h1 e1 r h2 e2,
        (parent d 0 = 0 /\ h1 = h0 /\ e1 = []
         \/ parent d 0 <> 0
            /\ pmgr_set_mode_recursive adt fuel st (parent d 0) target_mode true h0
               = Ret 0 h1 e1) ->
        parent d 1 <> 0 ->
        pmgr_set_mode_recursive adt fuel st (parent d 1) target_mode true h1
          = Ret r h2 e2 ->
        r < 0 ->
        pmgr_set_mode_recursive adt (S fuel) st dev_id target_mode true h
          = Ret r h2 (e0 ++ e1 ++ e2)).
Proof.
  intros Hd Hown. split.
  - intros r h1 e1 Hp Hrun Hr.
    rewrite (pmgr_set_mode_recursive_slots adt fuel st dev_id d target_mode h Hd).
    unfold own_transition. rewrite (bind_Ret _ _ _ _ _ _ Hown).
    cbn [Z.eqb]. unfold parent_slot.
    destruct (parent d 0 =? 0) eqn:E; [lia|].
    rewrite (bind_Ret _ _ _ _ _ _ Hrun).
    destruct (r <? 0) eqn:Er; [|lia]. cbn. now rewrite app_nil_r.
  - intros h1 e1 r h2 e2 Hslot0 Hp Hrun Hr.
    rewrite (pmgr_set_mode_recursive_slots adt fuel st dev_id d target_mode h Hd).
    unfold own_transition. rewrite (bind_Ret _ _ _ _ _ _ Hown).
    cbn [Z.eqb].
    assert (H0 : parent_slot adt fuel st target_mode (parent d 0) h0
                 = Ret 0 h1 e1).
    { unfold parent_slot.
      destruct Hslot0 as [(-> & -> & ->)|[Hnz H0]]; [reflexivity|].
      destruct (parent d 0 =? 0) eqn:E; [lia|exact H0]. }
    rewrite (bind_Ret _ _ _ _ _ _ H0). cbn [Z.ltb Z.compare].
    unfold parent_slot. destruct (parent d 1 =? 0) eqn:E; [lia|].
    rewrite (bind_Ret _ _ _ _ _ _ Hrun).
    destruct (r <? 0) eqn:Er; [|lia]. cbn. now rewrite !app_nil_r.
Qed.

(** I2C switched on: the state in which the own transition of I2C leaves
    [hw_idle]. *)
Definition hw_i2c_on : regfile :=
  mk_regfile {[ 0x23d280228 := 0xff ]} ∅.

(** On the sample board, enabling I2C switches I2C on, fails in slot 0
    (DISP, whose register bank does not exist) and returns: UART, in slot 1,
    is never written, and I2C stays on. *)
Lemma recursion_stops_at_first_failure_witness :
  pmgr_clock_enable sample_adt 4 sample_state 8 hw_idle
  = Ret (-1) hw_i2c_on
      [EvRead 0x23d280228 0; EvWrite 0x23d280228 0xf; EvRead 0x23d280228 0xff;
       EvPrint (MsgPsregOutOfBounds 7)].
Proof.
  refine (proj1 (recursion_stops_at_first_failure sample_adt 3 sample_state 8
                   (mk_device 0 4 2 5 1 8 "I2C") PMGR_PS_ACTIVE
                   hw_idle hw_i2c_on
                   [EvRead 0x23d280228 0; EvWrite 0x23d280228 0xf;
                    EvRead 0x23d280228 0xff] _ _)
            (-1) hw_i2c_on [EvPrint (MsgPsregOutOfBounds 7)] _ _ _).
  - reflexivity.
  - vm_compute. reflexivity.
  - discriminate.
  - vm_compute. reflexivity.
  - reflexivity.
Defined.



(** ** Batch operations *)

Section Batch.

Context {HW : Type} {IO : RegisterIO HW}.
Variable adt : adt_blob.

(** The batch operation in the words of the specification: the per-id
    transition is applied to every id of the array, in array order, whatever
    the earlier ones returned; the results are collected. *)
Fixpoint for_each_id (f : Z -> M HW Z) (ids : list Z) : M HW (list Z) :=
  match ids with
  | [] => ret []
  | i :: rest =>
      r <- f i ;;
      rs <- for_each_id f rest ;;
      ret (r :: rs)
  end.

(** At least one entry failed. *)
Definition any_failed (rs : list Z) : bool :=
  existsb (fun r => negb (r =? 0)) rs.

(** The ids of the clock-gates array, each converted to [u16] as the call
    converts it. *)
Definition clock_ids (clocks : nat -> Z) (n_clocks : Z) : list Z :=
  map (fun i => u16 (clocks i)) (seq 0 (Z.to_nat n_clocks)).

Lemma clocks_loop_for_each fuel st clocks target_mode recurse n :
  forall i res (h : HW),
    0 <= i ->
    clocks_loop adt fuel st clocks target_mode recurse i n res h =
    bind (for_each_id
            (fun dev_id =>
               pmgr_set_mode_recursive adt fuel st dev_id target_mode recurse)
            (map (fun k => u16 (clocks k)) (seq (Z.to_nat i) n)))
      (fun rs => ret (if any_failed rs then -1 else res)) h.
Proof.
  induction n as [|n IH]; intros i res h Hi.
  - cbn [clocks_loop seq map for_each_id]. now rewrite bind_ret_l.
  - cbn [clocks_loop seq map for_each_id].
    rewrite bind_assoc. apply bind_ext. intros r h1.
    rewrite IH by lia. rewrite bind_assoc.
    replace (Z.to_nat (i + 1)) with (S (Z.to_nat i)) by lia.
    apply bind_ext. intros rs h2. rewrite bind_ret_l.
    cbn [any_failed existsb]. fold (any_failed rs).
    now destruct (r =? 0), (any_failed rs).
Qed.


Lemma for_each_id_total (f : Z -> M HW Z) ids :
  Forall (fun i => returns (f i)) ids -> returns (for_each_id f ids).
Proof.
  induction 1 as [|i ids Hi _ IH]; intros h; [cbn; eauto|].
  cbn [for_each_id]. destruct (Hi h) as (r & h1 & e1 & Hf).
  rewrite (bind_Ret _ _ _ _ _ _ Hf).
  destruct (IH h1) as (rs & h2 & e2 & Hrest).
  rewrite (bind_Ret _ _ _ _ _ _ Hrest). cbn. eauto.
Qed.

Lemma for_each_id_results (f : Z -> M HW Z) ids :
  forall (h : HW) rs h' evs,
    for_each_id f ids h = Ret rs h' evs ->
    Forall2 (fun i r => exists h1 h2 e, f i h1 = Ret r h2 e) ids rs.
Proof.
  induction ids as [|i ids IH]; intros h rs h' evs H.
  - injection H as <- _ _. constructor.
  - cbn [for_each_id] in H.
    apply bind_Ret_inv in H as (r & h1 & e1 & e2 & Hf & H & _).
    apply bind_Ret_inv in H as (rs' & h2 & e3 & e4 & Hrest & H & _).
    injection H as <- _ _. constructor; eauto.
Qed.

End Batch.

(** C9. pmgr_adt_clocks_set_mode, of which pmgr_adt_clocks_enable and
    pmgr_adt_clocks_disable are the instances (ACTIVE, recursing) and
    (PWRGATE, not recursing), looks up the node at [path] and its clock-gates
    property in the device tree. If the node is not found, or the property is
    missing or empty, it returns -1 after one diagnostic, touching no
    register. Otherwise, with [clocks] the array the property points to and
    [len] its byte length, it behaves exactly as applying the per-id call to
    the ids clocks[0], ..., clocks[len / 4 - 1], each converted to u16, in
    array order and collecting the results, whether or not earlier entries
    failed; it returns -1 if at least one of the results is not 0, and 0 if
    all are. There is one result per id. On loaded tables in which the parent
    chains of the listed ids end within the fuel, every entry returns and so
    does the batch. *)
Theorem batch_applies_to_every_id {HW : Type} {IO : RegisterIO HW}
    (adt : adt_blob) (fuel : nat) (st : pmgr_state) (path : string)
    (target_mode : Z) (recurse : bool) (h : HW) (node : Z) (p : adt_prop) :
  node = adt_path_offset adt path ->
  p = adt_getprop adt node "clock-gates" ->
  (node < 0 ->
   pmgr_adt_clocks_set_mode adt fuel st path target_mode recurse h
   = Ret (-1) h [EvPrint (MsgNodeError path)])
  /\ (0 <= node -> prop_ptr p = None \/ prop_len p = 0 ->
      pmgr_adt_clocks_set_mode adt fuel st path target_mode recurse h
      = Ret (-1) h [EvPrint (MsgClockGatesError path)])
  /\ (forall clocks,
        0 <= node -> prop_ptr p = Some clocks -> prop_len p <> 0 ->
        pmgr_adt_clocks_set_mode adt fuel st path target_mode recurse h
        = bind (for_each_id
                  (fun dev_id =>
                     pmgr_set_mode_recursive adt fuel st dev_id
                       target_mode recurse)
                  (clock_ids (as_u32 clocks) (prop_len p / 4)))
            (fun rs => ret (if any_failed rs then -1 else 0)) h
        /\ (tables_loaded st ->
            Forall (fun dev_id => acyclic_within st fuel dev_id = true)
              (clock_ids (as_u32 clocks) (prop_len p / 4)) ->
            exists rs h' evs,
              for_each_id
                (fun dev_id =>
                   pmgr_set_mode_recursive adt fuel st dev_id
                     target_mode recurse)
                (clock_ids (as_u32 clocks) (prop_len p / 4)) h = Ret rs h' evs
              /\ length rs = Z.to_nat (prop_len p / 4)
              /\ pmgr_adt_clocks_set_mode adt fuel st path target_mode
                   recurse h
                 = Ret (if any_failed rs then -1 else 0) h' evs))
  /\ (forall clocks n_clocks,
        length (clock_ids clocks n_clocks) = Z.to_nat n_clocks
        /\ forall i, (i < Z.to_nat n_clocks)%nat ->
             nth_error (clock_ids clocks n_clocks) i = Some (u16 (clocks i)))
  /\ (forall f ids (h0 : HW) rs h' evs,
        for_each_id f ids h0 = Ret rs h' evs ->
        Forall2 (fun i r => exists h1 h2 e, f i h1 = Ret r h2 e) ids rs)
  /\ (forall rs, any_failed rs = true <-> Exists (fun r => r <> 0) rs)
  /\ pmgr_adt_clocks_enable adt fuel st path h
     = pmgr_adt_clocks_set_mode adt fuel st path PMGR_PS_ACTIVE true h
  /\ pmgr_adt_clocks_disable adt fuel st path h
     = pmgr_adt_clocks_set_mode adt fuel st path PMGR_PS_PWRGATE false h.
Proof.
  intros -> ->.
  split; [|split; [|split; [|split; [|split; [|split; [|split; reflexivity]]]]]].
  - intros Hn. unfold pmgr_adt_clocks_set_mode, pmgr_adt_find_clocks.
    apply Z.ltb_lt in Hn. rewrite Hn. reflexivity.
  - intros Hn Hp. unfold pmgr_adt_clocks_set_mode, pmgr_adt_find_clocks.
    apply Z.ltb_ge in Hn. rewrite Hn.
    destruct (prop_ptr _) as [clocks|]; [|reflexivity].
    destruct Hp as [[=]|Hl]. rewrite Hl. reflexivity.
  - intros clocks Hn Hp Hl. unfold pmgr_adt_clocks_set_mode, pmgr_adt_find_clocks.
    apply Z.ltb_ge in Hn. apply Z.eqb_neq in Hl. rewrite Hn, Hp, Hl.
    rewrite bind_ret_l.
    rewrite clocks_loop_for_each by lia. unfold clock_ids.
    split; [reflexivity|].
    intros Hld Hacyc.
    destruct (for_each_id_total
                (fun dev_id =>
                   pmgr_set_mode_recursive adt fuel st dev_id target_mode
                     recurse)
                (map (fun i => u16 (as_u32 clocks i))
                   (seq 0 (Z.to_nat
                             (prop_len
                                (adt_getprop adt (adt_path_offset adt path)
                                   "clock-gates") / 4)))))
      with (h := h) as (rs & h' & evs & Hall).
    { eapply List.Forall_impl; [|exact Hacyc]. intros i Hi.
      now apply pmgr_set_mode_recursive_total. }
    exists rs, h', evs. split; [exact Hall|]. split.
    + apply for_each_id_results in Hall. apply Forall2_length in Hall.
      rewrite <- Hall, length_map, length_seq. reflexivity.
    + rewrite (bind_Ret _ _ _ _ _ _ Hall). cbn. now rewrite !app_nil_r.
  - intros clocks n_clocks. unfold clock_ids. split.
    + now rewrite length_map, length_seq.
    + intros i Hi. rewrite nth_error_map, nth_error_seq.
      apply Nat.ltb_lt in Hi. now rewrite Hi.
  - intros f ids h0 rs h' evs. apply for_each_id_results.
  - intros rs. unfold any_failed. rewrite existsb_exists, List.Exists_exists.
    split; intros (r & Hin & Hr); exists r; split; trivial.
    + destruct (r =? 0) eqn:E; [discriminate|lia].
    + destruct (r =? 0) eqn:E; [lia|reflexivity].
Qed.

(** On the sample board the clock-gates property of the uart node is 12
    bytes long and holds UART (2), the unknown id 7 and SPI (6): the batch is
    the per-id call on 2, 7 and 6 in that order; the entry for 7 fails, SPI
    is still enabled after it, and the batch returns -1. *)
Lemma batch_applies_to_every_id_witness :
  pmgr_adt_clocks_enable sample_adt 4 sample_state "/arm-io/uart0" hw_idle
  = bind (for_each_id
            (fun dev_id =>
               pmgr_set_mode_recursive sample_adt 4 sample_state dev_id
                 PMGR_PS_ACTIVE true)
            [2; 7; 6])
      (fun rs => ret (if any_failed rs then -1 else 0)) hw_idle
  /\ exists h' evs,
       for_each_id
         (fun dev_id =>
            pmgr_set_mode_recursive sample_adt 4 sample_state dev_id
              PMGR_PS_ACTIVE true)
         [2; 7; 6] hw_idle = Ret [0; -1; 0] h' evs
       /\ pmgr_adt_clocks_enable sample_adt 4 sample_state "/arm-io/uart0"
            hw_idle = Ret (-1) h' evs.
Proof.
  destruct (batch_applies_to_every_id sample_adt 4 sample_state
              "/arm-io/uart0" PMGR_PS_ACTIVE true hw_idle 40
              (mk_prop (Some (view_of [2; 7; 6] [])) 12) eq_refl eq_refl)
    as (_ & _ & Hfound & _).
  destruct (Hfound (view_of [2; 7; 6] []) ltac:(lia) eq_refl ltac:(discriminate))
    as [Heq Htotal].
  split; [exact Heq|].
  destruct (Htotal (conj (ex_intro _ _ eq_refl) (ex_intro _ _ eq_refl))
              ltac:(repeat constructor))
    as (rs & h' & evs & Hall & _ & Hrun).
  assert (Hrs : rs = [0; -1; 0]).
  { revert Hall. vm_compute. now intros [= <- _ _]. }
  subst rs. exists h', evs. split; [exact Hall|exact Hrun].
Defined.

(** The writes of that run. *)
Example batch_on_sample_board :
  match pmgr_adt_clocks_enable sample_adt 4 sample_state "/arm-io/uart0" hw_idle with
  | Ret r h evs =>
      r = -1
      /\ List.filter is_write evs
         = [EvWrite 0x23b700110 0xf; EvWrite 0x23b700108 0xf;
            EvWrite 0x23d280220 0xf; EvWrite 0x23b700108 0xff;
            EvWrite 0x23b700110 0xff; EvWrite 0x23b700108 0xff]
      /\ peek h 0x23d280220 = 0xff
  | Abort _ => False
  end.
Proof. vm_compute. repeat split. Qed.

(** ** Initialisation and the reconciliation pass *)

Section Init.

Context {HW : Type} {IO : RegisterIO HW}.
Variable adt : adt_blob.

(** The pass in the words of the specification: the per-device step is
    run for every device of the table, in table order. *)
Fixpoint for_each_device (f : pmgr_device -> M HW unit)
    (ds : list pmgr_device) : M HW unit :=
  match ds with
  | [] => ret tt
  | d :: rest => f d ;;; for_each_device f rest
  end.

Lemma init_loop_for_each st devs n : forall i (h : HW),
  pmgr_devices st = Some devs -> 0 <= i ->
  init_loop adt st i n h =
  for_each_device (init_device adt st) (map devs (seq (Z.to_nat i) n)) h.
Proof.
  induction n as [|n IH]; intros i h Hd Hi; [reflexivity|].
  cbn [init_loop seq map for_each_device]. unfold deref. rewrite Hd, bind_ret_l.
  apply bind_ext. intros [] h1. rewrite IH by (trivial; lia).
  now replace (Z.to_nat (i + 1)) with (S (Z.to_nat i)) by lia.
Qed.

Lemma read32_total addr (h : HW) :
  read32 addr h = Ret (fst (hw_read32 addr h)) (snd (hw_read32 addr h))
                    [EvRead addr (fst (hw_read32 addr h))].
Proof. unfold read32. now destruct (hw_read32 addr h). Qed.

Lemma init_parent_total st d j :
  tables_loaded st -> returns (init_parent adt st d j).
Proof.
  intros [Hps Hdev] h. unfold init_parent.
  destruct (parent d j =? 0); cbn [negb]; [cbn; eauto|].
  rewrite (bind_Ret_nil _ _ _ _ _ (pmgr_find_device_pure st _ h Hdev)).
  destruct (lookup_device st (parent d j)) as [pd|]; [|cbn; eauto].
  destruct (pmgr_device_get_addr_pure (HW:=HW) adt st pd Hps)
    as (msgs & Hrun & _).
  rewrite (bind_Ret _ _ _ _ _ _ (Hrun h)).
  destruct (device_addr adt st pd =? 0); [cbn; eauto|].
  rewrite (bind_Ret _ _ _ _ _ _ (read32_total _ h)).
  destruct (_ && _); [|cbn; eauto].
  rewrite bind_printf.
  destruct (pmgr_set_mode_total (device_addr adt st pd) PMGR_PS_ACTIVE
              (snd (hw_read32 (device_addr adt st pd) h)))
    as (r & h' & evs & Hs & _).
  rewrite (bind_Ret _ _ _ _ _ _ Hs). cbn. eauto.
Qed.

Lemma init_device_total st d :
  tables_loaded st -> returns (init_device adt st d).
Proof.
  intros Hl h. unfold init_device.
  destruct (Z.land (flags d) PMGR_FLAG_VIRTUAL =? 0); cbn [negb]; [|cbn; eauto].
  destruct (pmgr_device_get_addr_pure (HW:=HW) adt st d (proj1 Hl))
    as (msgs & Hrun & _).
  rewrite (bind_Ret _ _ _ _ _ _ (Hrun h)).
  destruct (device_addr adt st d =? 0); [cbn; eauto|].
  rewrite (bind_Ret _ _ _ _ _ _ (read32_total _ h)).
  destruct (shows_active _); [|cbn; eauto].
  destruct (init_parent_total st d 0 Hl (snd (hw_read32 (device_addr adt st d) h)))
    as ([] & h1 & e1 & H0).
  rewrite (bind_Ret _ _ _ _ _ _ H0).
  destruct (init_parent_total st d 1 Hl h1) as ([] & h2 & e2 & ->). eauto.
Qed.

Lemma for_each_device_total (f : pmgr_device -> M HW unit) ds :
  (forall d, returns (f d)) -> returns (for_each_device f ds).
Proof.
  intros Hf. induction ds as [|d ds IH]; intros h; [cbn; eauto|].
  cbn [for_each_device]. destruct (Hf d h) as ([] & h1 & e1 & Hd).
  rewrite (bind_Ret _ _ _ _ _ _ Hd).
  destruct (IH h1) as ([] & h2 & e2 & ->). eauto.
Qed.

(** The static variables a successful pmgr_init leaves. *)
Definition loaded_state (path : list Z) (offset : Z) (ps dv : prop_view)
    (ps_len dv_len : Z) : pmgr_state :=
  mk_state 1 path offset (Some (as_u32 ps)) ps_len
    (Some (as_devices dv)) (dv_len / sizeof_pmgr_device).

(** pmgr_init when the node and both properties are found. *)
Lemma pmgr_init_found st offset path ps dv (h : HW) :
  adt_path_offset_trace adt "/arm-io/pmgr" = (offset, path) ->
  0 <= offset ->
  prop_ptr (adt_getprop adt offset "ps-regs") = Some ps ->
  prop_len (adt_getprop adt offset "ps-regs") <> 0 ->
  prop_ptr (adt_getprop adt offset "devices") = Some dv ->
  prop_len (adt_getprop adt offset "devices") <> 0 ->
  let st' := loaded_state path offset ps dv
               (prop_len (adt_getprop adt offset "ps-regs"))
               (prop_len (adt_getprop adt offset "devices")) in
  pmgr_init adt st h =
  (printf MsgCleaningUp ;;;
   for_each_device (init_device adt st') (device_array st') ;;;
   printf (MsgInitialized (pmgr_devices_len st')) ;;;
   ret (0, st')) h.
Proof.
  intros Htrace Hoff Hps Hpl Hdv Hdl st'. unfold pmgr_init.
  rewrite Htrace. destruct (offset <? 0) eqn:Eo; [lia|].
  rewrite Hps, Hdv. cbn [option_map].
  destruct (bool_decide (Some ps = None)) eqn:E1;
    [apply bool_decide_eq_true in E1; discriminate|].
  destruct (bool_decide (Some dv = None)) eqn:E2;
    [apply bool_decide_eq_true in E2; discriminate|].
  destruct (prop_len (adt_getprop adt offset "ps-regs") =? 0) eqn:E3; [lia|].
  destruct (prop_len (adt_getprop adt offset "devices") =? 0) eqn:E4; [lia|].
  cbn [orb]. unfold st', loaded_state, device_array.
  cbn [pmgr_devices pmgr_devices_len]. rewrite !bind_printf.
  match goal with
  | |- context [init_loop adt ?s 0 ?n] =>
      assert (Hloop : forall h1,
                bind (init_loop adt s 0 n)
                  (fun _ => printf (MsgInitialized (pmgr_devices_len s)) ;;;
                            ret (0, s)) h1
                = bind (for_each_device (init_device adt s)
                          (map (as_devices dv) (seq 0 n)))
                    (fun _ => printf (MsgInitialized (pmgr_devices_len s)) ;;;
                              ret (0, s)) h1)
  end.
  { intros h1. unfold bind at 1 3.
    now rewrite (init_loop_for_each _ (as_devices dv)). }
  cbn [pmgr_devices_len] in Hloop. now rewrite Hloop.
Qed.

End Init.

Section Reconciliation.

Context {HW : Type} {IO : RegisterIO HW}.
Variable adt : adt_blob.

(** What the pass does for slot [j] of an active device [d], from the
    hardware state [h0]. *)
Definition parent_step_spec (st : pmgr_state) (d : pmgr_device) (j : nat)
    (h0 : HW) : Prop :=
  let p := parent d j in
  (p = 0 -> init_parent adt st d j h0 = Ret tt h0 [])
  /\ (p <> 0 -> lookup_device st p = None ->
      init_parent adt st d j h0
      = Ret tt h0 [EvPrint (MsgParentNotFound p (name d))])
  /\ (forall pd,
        p <> 0 -> lookup_device st p = Some pd ->
        device_addr adt st pd = 0 ->
        exists msgs,
          init_parent adt st d j h0 = Ret tt h0 msgs
          /\ Forall (fun e => is_io e = false) msgs)
  /\ (forall pd,
        p <> 0 -> lookup_device st p = Some pd ->
        device_addr adt st pd <> 0 ->
        let a := device_addr adt st pd in
        let reg := fst (hw_read32 a h0) in
        let h1 := snd (hw_read32 a h0) in
        if shows_active reg then
          init_parent adt st d j h0 = Ret tt h1 [EvRead a reg]
        else
          exists r h2 e,
            pmgr_set_mode a PMGR_PS_ACTIVE h1 = Ret r h2 e
            /\ init_parent adt st d j h0
               = Ret tt h2 (EvRead a reg
                            :: EvPrint (MsgEnablingParent (name pd) (name d))
                            :: e)
            /\ List.filter is_write e
               = [EvWrite a (with_target (fst (hw_read32 a h1)) PMGR_PS_ACTIVE)]
            /\ Forall (fun ev => is_io ev = true -> io_addr ev = Some a) e).

(** What the pass does for the device [d] of the table, from the hardware
    state [h0]. *)
Definition device_step_spec (st : pmgr_state) (d : pmgr_device) (h0 : HW)
  : Prop :=
  (is_virtual d = true -> init_device adt st d h0 = Ret tt h0 [])
  /\ (is_virtual d = false -> device_addr adt st d = 0 ->
      exists msgs,
        init_device adt st d h0 = Ret tt h0 msgs
        /\ Forall (fun e => is_io e = false) msgs)
  /\ (is_virtual d = false -> device_addr adt st d <> 0 ->
      let a := device_addr adt st d in
      let reg := fst (hw_read32 a h0) in
      let h1 := snd (hw_read32 a h0) in
      if shows_active reg then
        init_device adt st d h0
        = (read32 a ;;; init_parent adt st d 0 ;;; init_parent adt st d 1) h0
      else init_device adt st d h0 = Ret tt h1 [EvRead a reg]).

Lemma init_parent_cases st d j (h0 : HW) :
  tables_loaded st -> parent_step_spec st d j h0.
Proof.
  intros [Hps Hdev]. unfold parent_step_spec, init_parent. cbv zeta.
  destruct (parent d j =? 0) eqn:Ep; cbn [negb].
  { repeat split; intros; try reflexivity; lia. }
  rewrite (bind_Ret_nil _ _ _ _ _ (pmgr_find_device_pure st _ h0 Hdev)).
  split; [lia|]. split.
  { intros _ ->. reflexivity. }
  split.
  - intros pd _ -> Ha.
    destruct (pmgr_device_get_addr_pure (HW:=HW) adt st pd Hps)
      as (msgs & Hrun & Hmsgs & _).
    exists msgs. split; [|assumption].
    rewrite (bind_Ret _ _ _ _ _ _ (Hrun h0)), Ha. cbn. now rewrite app_nil_r.
  - intros pd _ -> Ha.
    destruct (pmgr_device_get_addr_pure (HW:=HW) adt st pd Hps)
      as (msgs & Hrun & _ & Hnil).
    rewrite (bind_Ret _ _ _ _ _ _ (Hrun h0)), (Hnil Ha).
    destruct (device_addr adt st pd =? 0) eqn:Ea; [lia|]. cbn [app].
    rewrite (bind_Ret _ _ _ _ _ _ (read32_total _ h0)).
    unfold shows_active.
    destruct (Z.land _ PMGR_AUTO_ENABLE =? 0),
             (FIELD_GET PMGR_PS_TARGET _ =? PMGR_PS_ACTIVE);
      cbn [negb andb orb]; try reflexivity.
    rewrite bind_printf.
    destruct (pmgr_set_mode_total (device_addr adt st pd) PMGR_PS_ACTIVE
                (snd (hw_read32 (device_addr adt st pd) h0)))
      as (r & h2 & e & Hs & _).
    exists r, h2, e. split; [exact Hs|].
    rewrite (bind_Ret _ _ _ _ _ _ Hs). cbn. rewrite app_nil_r.
    split; [reflexivity|].
    destruct (pmgr_set_mode_io _ _ _ _ _ _ Hs) as [Hio Hw]. now split.
Qed.

Lemma init_device_cases st d (h0 : HW) :
  tables_loaded st -> device_step_spec st d h0.
Proof.
  intros [Hps Hdev]. unfold device_step_spec, init_device, is_virtual. cbv zeta.
  destruct (Z.land (flags d) PMGR_FLAG_VIRTUAL =? 0); cbn [negb].
  2:{ repeat split; intros; try reflexivity; discriminate. }
  split; [discriminate|].
  destruct (pmgr_device_get_addr_pure (HW:=HW) adt st d Hps)
    as (msgs & Hrun & Hmsgs & Hnil).
  rewrite (bind_Ret _ _ _ _ _ _ (Hrun h0)). split.
  - intros _ Ha. exists msgs. split; [|assumption].
    rewrite Ha. cbn. now rewrite app_nil_r.
  - intros _ Ha. rewrite (Hnil Ha).
    destruct (device_addr adt st d =? 0) eqn:Ea; [lia|]. cbn [app].
    rewrite (bind_Ret _ _ _ _ _ _ (read32_total _ h0)).
    destruct (shows_active _).
    + rewrite (bind_Ret _ _ _ _ _ _ (read32_total _ h0)).
      now destruct (bind _ _ _).
    + reflexivity.
Qed.

End Reconciliation.

(** The pass as the code is written. When the node and both tables are
    found, pmgr_init runs the per-device step for every device of the table,
    in table order, between its two progress messages. A virtual device, and
    one whose register does not resolve, is passed over without a register
    access. Otherwise the register is read: if it shows neither AUTO_ENABLE
    nor TARGET_STATE equal to ACTIVE, that read is all that happens for the
    device; if it does, the two parent slots are handled in order. An empty
    slot does nothing, a parent missing from the table is reported and
    skipped, a parent for which pmgr_device_get_addr returns 0 is skipped;
    otherwise the word at the address pmgr_device_get_addr returns for the
    parent's record is read, and if it shows AUTO_ENABLE or TARGET_STATE equal
    to ACTIVE nothing is written, else pmgr_set_mode(ACTIVE) is applied once
    to that address. The VIRTUAL flag of the parent is not looked at. *)
Theorem reconciliation_pass {HW : Type} {IO : RegisterIO HW}
    (adt : adt_blob) (st : pmgr_state) (offset : Z) (path : list Z)
    (ps dv : prop_view) (h : HW) :
  adt_path_offset_trace adt "/arm-io/pmgr" = (offset, path) ->
  0 <= offset ->
  prop_ptr (adt_getprop adt offset "ps-regs") = Some ps ->
  prop_len (adt_getprop adt offset "ps-regs") <> 0 ->
  prop_ptr (adt_getprop adt offset "devices") = Some dv ->
  prop_len (adt_getprop adt offset "devices") <> 0 ->
  let st' := loaded_state path offset ps dv
               (prop_len (adt_getprop adt offset "ps-regs"))
               (prop_len (adt_getprop adt offset "devices")) in
  pmgr_init adt st h =
    (printf MsgCleaningUp ;;;
     for_each_device (init_device adt st') (device_array st') ;;;
     printf (MsgInitialized (pmgr_devices_len st')) ;;;
     ret (0, st')) h
  /\ (forall d h0, device_step_spec adt st' d h0)
  /\ (forall d j h0, parent_step_spec adt st' d j h0).
Proof.
  intros Htrace Hoff Hps Hpl Hdv Hdl st'.
  assert (Hl : tables_loaded st') by (split; eexists; reflexivity).
  split; [now apply pmgr_init_found|]. split.
  - intros d h0. now apply init_device_cases.
  - intros d j h0. now apply init_parent_cases.
Qed.

(** UART was left running by the previous stage, SOC was not. *)
Definition hw_uart_left_on : regfile :=
  mk_regfile {[ 0x23b700110 := 0xf ]} ∅.

(** On the sample board with UART left running: the pass reads SOC
    (idle: nothing more), reads UART (active), reads its parent SOC (idle) and
    sets it to ACTIVE; DISP does not resolve; ORPH, SPI and I2C are idle. *)
Lemma reconciliation_pass_witness :
  exists h',
    pmgr_init sample_adt pmgr_state0 hw_uart_left_on =
      Ret (0, sample_state) h'
        [EvPrint MsgCleaningUp;
         EvRead 0x23b700108 0;
         EvRead 0x23b700110 0xf;
         EvRead 0x23b700108 0;
         EvPrint (MsgEnablingParent "SOC" "UART");
         EvRead 0x23b700108 0; EvWrite 0x23b700108 0xf; EvRead 0x23b700108 0xff;
         EvPrint (MsgPsregOutOfBounds 7);
         EvRead 0x23d280218 0; EvRead 0x23d280220 0; EvRead 0x23d280228 0;
         EvPrint (MsgInitialized 7)]
    /\ FIELD_GET PMGR_PS_TARGET (peek h' 0x23b700108) = PMGR_PS_ACTIVE.
Proof.
  destruct (reconciliation_pass sample_adt pmgr_state0 16 [0; 8; 16; 0; 0; 0; 0; 0]
              (view_of sample_ps_regs []) (view_of [] sample_devices)
              hw_uart_left_on eq_refl ltac:(discriminate) eq_refl
              ltac:(discriminate) eq_refl ltac:(discriminate))
    as (Hrun & _ & _).
  eexists. rewrite Hrun. vm_compute. split; reflexivity.
Defined.

(** C10. When the PMU node is found and its ps-regs and devices properties
    are present and non-empty, pmgr_init returns 0 and leaves the engine
    initialised with both tables loaded, from every hardware state and
    whatever the registers answer during the pass: each step of the pass
    returns, with no result that pmgr_init would look at. *)
Theorem init_succeeds_whatever_the_pass_sees {HW : Type} {IO : RegisterIO HW}
    (adt : adt_blob) (st : pmgr_state) (offset : Z) (path : list Z)
    (ps dv : prop_view) (h : HW) :
  adt_path_offset_trace adt "/arm-io/pmgr" = (offset, path) ->
  0 <= offset ->
  prop_ptr (adt_getprop adt offset "ps-regs") = Some ps ->
  prop_len (adt_getprop adt offset "ps-regs") <> 0 ->
  prop_ptr (adt_getprop adt offset "devices") = Some dv ->
  prop_len (adt_getprop adt offset "devices") <> 0 ->
  exists st' h' evs,
    pmgr_init adt st h = Ret (0, st') h' evs
    /\ pmgr_initialized st' = 1
    /\ tables_loaded st'
    /\ last evs = Some (EvPrint (MsgInitialized (pmgr_devices_len st')))
    /\ (forall d j h0, exists h1 e, init_parent adt st' d j h0 = Ret tt h1 e).
Proof.
  intros Htrace Hoff Hps Hpl Hdv Hdl.
  set (st' := loaded_state path offset ps dv
                (prop_len (adt_getprop adt offset "ps-regs"))
                (prop_len (adt_getprop adt offset "devices"))).
  assert (Hl : tables_loaded st') by (split; eexists; reflexivity).
  rewrite (pmgr_init_found adt st offset path ps dv h Htrace Hoff Hps Hpl Hdv Hdl).
  fold st'. rewrite bind_printf.
  destruct (for_each_device_total (init_device adt st') (device_array st')
              (fun d => init_device_total adt st' d Hl) h)
    as ([] & h' & evs & Hpass).
  rewrite (bind_Ret _ _ _ _ _ _ Hpass). cbn.
  exists st', h'. eexists. split; [reflexivity|].
  split; [reflexivity|]. split; [exact Hl|]. split.
  - rewrite app_comm_cons. apply last_snoc.
  - intros d j h0. destruct (init_parent_total adt st' d j Hl h0)
      as ([] & h1 & e & H). eauto.
Qed.

(** UART and ORPH were left running, I2C in automatic mode; the register
    of SOC is stuck. *)
Definition hw_handoff : regfile :=
  mk_regfile {[ 0x23b700110 := 0xf; 0x23d280218 := 0xf;
                0x23d280228 := 0x10000000 ]}
             {[ 0x23b700108 ]}.

Lemma init_succeeds_whatever_the_pass_sees_witness :
  exists st' h' evs,
    pmgr_init sample_adt pmgr_state0 hw_handoff = Ret (0, st') h' evs
    /\ pmgr_initialized st' = 1.
Proof.
  destruct (init_succeeds_whatever_the_pass_sees sample_adt pmgr_state0 16
              [0; 8; 16; 0; 0; 0; 0; 0]
              (view_of sample_ps_regs []) (view_of [] sample_devices)
              hw_handoff eq_refl ltac:(discriminate) eq_refl
              ltac:(discriminate) eq_refl ltac:(discriminate))
    as (st' & h' & evs & Hrun & Hinit & _).
  exists st', h', evs. split; [exact Hrun|exact Hinit].
Defined.

Definition is_message (m : message) (e : event) : bool :=
  match e, m with
  | EvPrint (MsgPollExpired t a v), MsgPollExpired t' a' v' =>
      (t =? t') && (a =? a') && (v =? v')
  | EvPrint (MsgParentNotFound p c), MsgParentNotFound p' c' =>
      (p =? p') && String.eqb c c'
  | EvPrint (MsgPsregOutOfBounds i), MsgPsregOutOfBounds i' => i =? i'
  | _, _ => false
  end.

(** That run of pmgr_init meets all three obstacles: forcing SOC to ACTIVE
    for UART runs into the poll budget, the parent of ORPH is not in the
    table, the register of DISP, parent of I2C, does not resolve. It returns
    0 all the same, and SOC is left requested but not acknowledged. *)
Example init_with_obstacles :
  match pmgr_init sample_adt pmgr_state0 hw_handoff with
  | Ret (r, st') h' evs =>
      r = 0
      /\ existsb (is_message (MsgPollExpired PMGR_PS_ACTIVE 0x23b700108 0xf)) evs
         = true
      /\ existsb (is_message (MsgParentNotFound 9 "ORPH")) evs = true
      /\ existsb (is_message (MsgPsregOutOfBounds 7)) evs = true
      /\ peek h' 0x23b700108 = 0xf
  | Abort _ => False
  end.
Proof. vm_compute. repeat split. Qed.

(** The pass does not test the VIRTUAL flag of a parent: with SPI left
    running, its parent VIRT is resolved like any other device (bank 0,
    offset 0) and the word at that address is read and set to ACTIVE. *)
Example init_resolves_virtual_parent :
  match pmgr_init sample_adt pmgr_state0
          (mk_regfile {[ 0x23d280220 := 0xf ]} ∅) with
  | Ret (r, _) h' evs =>
      r = 0
      /\ lookup_device sample_state 3 = Some (mk_device 0x10 1 0 0 0 3 "VIRT")
      /\ List.filter is_write evs
         = [EvWrite 0x23b700100 0xf; EvWrite 0x23b700110 0xf]
  | Abort _ => False
  end.
Proof. vm_compute. repeat split. Qed.

(** ** A virtual parent in the reconciliation pass *)

(** A board of three domains on the register banks of the sample board:
    AUX (1), which has no parent and is nobody's parent, at offset 0 of
    bank 0; the virtual domain VIRT (2), whose record has zeros in its address
    fields; GPU (3), child of VIRT, at offset 1 of bank 0. *)
Definition alias_devices : list pmgr_device :=
  [ mk_device 0 0 0 0 0 1 "AUX";
    mk_device 0x10 0 0 0 0 2 "VIRT";
    mk_device 0 2 0 1 0 3 "GPU" ].

Definition alias_adt : adt_blob :=
  mk_adt
    (adt_path_offset sample_adt)
    (adt_path_offset_trace sample_adt)
    (fun node prop_name =>
       if (node =? 16) && String.eqb prop_name "devices" then
         mk_prop (Some (view_of [] alias_devices)) 144
       else adt_getprop sample_adt node prop_name)
    (adt_get_reg sample_adt).

(** GPU was left running by the previous stage; AUX is gated. *)
Definition hw_gpu_left_on : regfile :=
  mk_regfile {[ 0x23b700108 := 0xf ]} ∅.

(** C3. The pass is not confined to the registers of parents when a parent
    slot names a virtual device. On the board above GPU is found running; its
    parent VIRT is virtual and has no register. The pass does not test the
    VIRTUAL flag of the parent: it computes an address from the record of
    VIRT, bank 0 offset 0, which is the register of AUX, reads it, finds it
    idle and applies pmgr_set_mode(ACTIVE) to it. AUX did not show active, is
    not the parent of any device, and ends up switched on. *)
Theorem reconciliation_writes_through_virtual_parent :
  match pmgr_init alias_adt pmgr_state0 hw_gpu_left_on with
  | Ret (r, st') h' evs =>
      r = 0
      /\ device_array st' = alias_devices
      /\ lookup_device st' 2 = Some (mk_device 0x10 0 0 0 0 2 "VIRT")
      /\ is_virtual (mk_device 0x10 0 0 0 0 2 "VIRT") = true
      /\ lookup_device st' 1 = Some (mk_device 0 0 0 0 0 1 "AUX")
      /\ is_virtual (mk_device 0 0 0 0 0 1 "AUX") = false
      /\ device_addr alias_adt st' (mk_device 0 0 0 0 0 1 "AUX") = 0x23b700100
      /\ forallb (fun d => negb (parent d 0 =? 1) && negb (parent d 1 =? 1))
           (device_array st') = true
      /\ shows_active (regfile_peek hw_gpu_left_on 0x23b700100) = false
      /\ evs = [EvPrint MsgCleaningUp;
                EvRead 0x23b700100 0;
                EvRead 0x23b700108 0xf;
                EvRead 0x23b700100 0;
                EvPrint (MsgEnablingParent "VIRT" "GPU");
                EvRead 0x23b700100 0; EvWrite 0x23b700100 0xf;
                EvRead 0x23b700100 0xff;
                EvPrint (MsgInitialized 3)]
      /\ regfile_peek h' 0x23b700100 = 0xff
  | Abort _ => False
  end.
Proof. vm_compute. repeat split. Qed.

(** * Further properties of the code *)

(** ** Device lookup *)

(** The state with another table behind [pmgr_devices]. *)
Definition set_devices (st : pmgr_state) (devs : nat -> pmgr_device)
  : pmgr_state :=
  mk_state (pmgr_initialized st) (pmgr_path st) (pmgr_offset st)
    (pmgr_ps_regs st) (pmgr_ps_regs_len st) (Some devs) (pmgr_devices_len st).

Lemma find_first_match (devs : nat -> pmgr_device) (dev_id : Z) n : forall i,
  match List.find (fun d => id d =? dev_id) (map devs (seq i n)) with
  | Some d =>
      exists k, (i <= k < i + n)%nat /\ d = devs k /\ id d = dev_id
                /\ forall j, (i <= j < k)%nat -> id (devs j) <> dev_id
  | None => forall j, (i <= j < i + n)%nat -> id (devs j) <> dev_id
  end.
Proof.
  induction n as [|n IH]; intros i; cbn [seq map List.find].
  - intros j Hj. lia.
  - destruct (id (devs i) =? dev_id) eqn:E.
    + exists i. split; [lia|]. split; [reflexivity|]. split; [lia|].
      intros j Hj. lia.
    + specialize (IH (S i)).
      destruct (List.find _ (map devs (seq (S i) n))) as [d|].
      * destruct IH as (k & Hk & -> & Hid & Hbefore).
        exists k. repeat split; trivial; try lia.
        intros j Hj. destruct (Nat.eq_dec j i) as [->|Hne]; [lia|].
        apply Hbefore. lia.
      * intros j Hj. destruct (Nat.eq_dec j i) as [->|Hne]; [lia|].
        apply IH. lia.
Qed.

(** pmgr_find_device is a linear scan that stops at the first hit: with a
    table behind the pointer it touches no register and prints nothing; a
    device it returns is the record of lowest index with the id asked for,
    and it fails exactly when none of the [pmgr_devices_len] records has that
    id. Records behind the end of the table do not influence it. *)
Theorem pmgr_find_device_first_match {HW : Type} {IO : RegisterIO HW}
    (st : pmgr_state) (devs : nat -> pmgr_device) (dev_id : Z) (h : HW) :
  pmgr_devices st = Some devs ->
  (exists found,
     pmgr_find_device st dev_id h = Ret found h []
     /\ match found with
        | Some d =>
            exists k, (k < Z.to_nat (pmgr_devices_len st))%nat
                      /\ d = devs k /\ id d = dev_id
                      /\ forall j, (j < k)%nat -> id (devs j) <> dev_id
        | None =>
            forall j, (j < Z.to_nat (pmgr_devices_len st))%nat ->
                      id (devs j) <> dev_id
        end)
  /\ (forall devs' : nat -> pmgr_device,
        (forall j, (j < Z.to_nat (pmgr_devices_len st))%nat -> devs' j = devs j) ->
        pmgr_find_device (set_devices st devs') dev_id h
        = pmgr_find_device st dev_id h).
Proof.
  intros Hd. split.
  - exists (lookup_device st dev_id).
    split; [apply pmgr_find_device_pure; rewrite Hd; now eexists|].
    unfold lookup_device, device_array. rewrite Hd.
    pose proof (find_first_match devs dev_id
                  (Z.to_nat (pmgr_devices_len st)) 0) as H.
    destruct (List.find _ _) as [d|].
    + destruct H as (k & Hk & -> & Hid & Hbefore).
      exists k. repeat split; trivial; try lia. intros j Hj. apply Hbefore. lia.
    + intros j Hj. apply H. lia.
  - intros devs' Hagree.
    rewrite (pmgr_find_device_pure st dev_id h) by (rewrite Hd; now eexists).
    rewrite (pmgr_find_device_pure (set_devices st devs') dev_id h)
      by (now eexists).
    f_equal. unfold lookup_device, device_array, set_devices. cbn. rewrite Hd.
    f_equal. apply map_ext_in. intros j Hj. apply in_seq in Hj.
    apply Hagree. lia.
Qed.

(** In the sample table a second record with id 2 is shadowed by the
    first. *)
Lemma pmgr_find_device_first_match_witness :
  pmgr_find_device
    (set_devices sample_state
       (fun i => nth i (sample_devices ++ [mk_device 0 0 0 9 1 2 "UART2"])
                   null_device))
    2 hw_idle
  = pmgr_find_device sample_state 2 hw_idle.
Proof.
  apply (proj2 (pmgr_find_device_first_match sample_state
                  (as_devices (view_of [] sample_devices)) 2 hw_idle eq_refl)).
  intros j Hj. cbn in Hj.
  do 7 (destruct j as [|j]; [reflexivity|]). lia.
Defined.

(** ** Outcome of initialisation *)

(** The blob has what pmgr_init looks for: the node, and both properties
    present and non-empty. *)
Definition blob_found (adt : adt_blob) : Prop :=
  let offset := fst (adt_path_offset_trace adt "/arm-io/pmgr") in
  0 <= offset
  /\ prop_ptr (adt_getprop adt offset "ps-regs") <> None
  /\ prop_len (adt_getprop adt offset "ps-regs") <> 0
  /\ prop_ptr (adt_getprop adt offset "devices") <> None
  /\ prop_len (adt_getprop adt offset "devices") <> 0.

Section InitOutcome.

Context {HW : Type} {IO : RegisterIO HW}.
Variable adt : adt_blob.

(** The two ways pmgr_init can go. *)
Lemma pmgr_init_cases st (h : HW) :
  (blob_found adt
   /\ exists st' h' evs,
        pmgr_init adt st h = Ret (0, st') h' evs
        /\ pmgr_initialized st' = 1 /\ tables_loaded st'
        /\ (forall st0 (h0 : HW),
              exists h1 evs1, pmgr_init adt st0 h0 = Ret (0, st') h1 evs1)
        /\ exists pass,
             evs = EvPrint MsgCleaningUp :: pass
                   ++ [EvPrint (MsgInitialized (pmgr_devices_len st'))]
             /\ exists h2,
                  for_each_device (init_device adt st') (device_array st') h
                  = Ret tt h2 pass)
  \/ (~ blob_found adt
      /\ exists st' msg,
           pmgr_init adt st h = Ret (-1, st') h [EvPrint msg]
           /\ pmgr_initialized st' = pmgr_initialized st).
Proof.
  unfold blob_found. cbv zeta.
  destruct (adt_path_offset_trace adt "/arm-io/pmgr") as [offset path] eqn:Ht.
  cbn [fst].
  assert (Hfail : forall (P : Prop), ~ P ->
            (exists st' msg,
               pmgr_init adt st h = Ret (-1, st') h [EvPrint msg]
               /\ pmgr_initialized st' = pmgr_initialized st) ->
            (P /\ exists st' h' evs,
               pmgr_init adt st h = Ret (0, st') h' evs
               /\ pmgr_initialized st' = 1 /\ tables_loaded st'
               /\ (forall st0 (h0 : HW),
                     exists h1 evs1, pmgr_init adt st0 h0 = Ret (0, st') h1 evs1)
               /\ exists pass,
                    evs = EvPrint MsgCleaningUp :: pass
                          ++ [EvPrint (MsgInitialized (pmgr_devices_len st'))]
                    /\ exists h2,
                         for_each_device (init_device adt st') (device_array st') h
                         = Ret tt h2 pass)
            \/ (~ P /\ exists st' msg,
                  pmgr_init adt st h = Ret (-1, st') h [EvPrint msg]
                  /\ pmgr_initialized st' = pmgr_initialized st)).
  { intros P HP H. right. now split. }
  destruct (offset <? 0) eqn:Eo.
  { apply Hfail; [lia|]. unfold pmgr_init. rewrite Ht, Eo.
    do 2 eexists. split; reflexivity. }
  destruct (prop_ptr (adt_getprop adt offset "ps-regs")) as [ps|] eqn:Eps.
  2:{ apply Hfail; [tauto|]. unfold pmgr_init. rewrite Ht, Eo, Eps.
      do 2 eexists. split; reflexivity. }
  destruct (prop_len (adt_getprop adt offset "ps-regs") =? 0) eqn:Epl.
  { apply Hfail; [lia|]. unfold pmgr_init. rewrite Ht, Eo, Eps, Epl.
    do 2 eexists. split; reflexivity. }
  destruct (prop_ptr (adt_getprop adt offset "devices")) as [dv|] eqn:Edv.
  2:{ apply Hfail; [tauto|]. unfold pmgr_init. rewrite Ht, Eo, Eps, Epl, Edv.
      do 2 eexists. split; reflexivity. }
  destruct (prop_len (adt_getprop adt offset "devices") =? 0) eqn:Edl.
  { apply Hfail; [lia|]. unfold pmgr_init. rewrite Ht, Eo, Eps, Epl, Edv, Edl.
    do 2 eexists. split; reflexivity. }
  clear Hfail. left. split; [repeat split; try discriminate; lia|].
  set (st' := loaded_state path offset ps dv
                (prop_len (adt_getprop adt offset "ps-regs"))
                (prop_len (adt_getprop adt offset "devices"))).
  assert (Hl : tables_loaded st') by (split; eexists; reflexivity).
  assert (Hrun : forall st0 (h0 : HW),
            exists h1 pass,
              for_each_device (init_device adt st') (device_array st') h0
              = Ret tt h1 pass
              /\ pmgr_init adt st0 h0
                 = Ret (0, st') h1
                     (EvPrint MsgCleaningUp :: pass
                      ++ [EvPrint (MsgInitialized (pmgr_devices_len st'))])).
  { intros st0 h0.
    rewrite (pmgr_init_found adt st0 offset path ps dv h0 Ht) by (trivial; lia).
    fold st'. rewrite bind_printf.
    destruct (for_each_device_total (init_device adt st') (device_array st')
                (fun d => init_device_total adt st' d Hl) h0)
      as ([] & h1 & pass & Hpass).
    rewrite (bind_Ret _ _ _ _ _ _ Hpass). cbn. eauto. }
  destruct (Hrun st h) as (h' & pass & Hpass & Hinit).
  exists st', h'. eexists. split; [exact Hinit|].
  split; [reflexivity|]. split; [exact Hl|]. split.
  - intros st0 h0. destruct (Hrun st0 h0) as (h1 & pass1 & _ & H1). eauto.
  - exists pass. split; [reflexivity|]. eauto.
Qed.

End InitOutcome.

(** pmgr_init always returns. It returns 0 exactly when the blob has the
    node and both properties, present and non-empty, and then the engine is
    initialised; otherwise it returns -1 after one diagnostic, with no
    register access and [pmgr_initialized] as it was, so that an engine that
    was not initialised still refuses every call. *)
Theorem pmgr_init_outcome {HW : Type} {IO : RegisterIO HW}
    (adt : adt_blob) (st : pmgr_state) (h : HW) :
  exists r st' h' evs,
    pmgr_init adt st h = Ret (r, st') h' evs
    /\ (r = 0 \/ r = -1)
    /\ (r = 0 <-> blob_found adt)
    /\ (r = 0 -> pmgr_initialized st' = 1 /\ tables_loaded st')
    /\ (r = -1 ->
        h' = h /\ (exists msg, evs = [EvPrint msg])
        /\ pmgr_initialized st' = pmgr_initialized st
        /\ (pmgr_initialized st = 0 ->
            forall fuel dev_id,
              pmgr_clock_enable adt (S fuel) st' dev_id h'
              = Ret (-1) h' [EvPrint MsgBeforeInit])).
Proof.
  destruct (pmgr_init_cases adt st h)
    as [(Hfound & st' & h' & evs & Hrun & Hi & Hl & _)
       |(Hnot & st' & msg & Hrun & Hi)].
  - exists 0, st', h', evs. split; [exact Hrun|]. split; [now left|].
    split; [tauto|]. split; [tauto|]. discriminate.
  - exists (-1), st', h, [EvPrint msg]. split; [exact Hrun|].
    split; [now right|]. split; [split; [discriminate|tauto]|].
    split; [discriminate|]. intros _. split; [reflexivity|].
    split; [eauto|]. split; [exact Hi|]. intros H0 fuel dev_id.
    apply uninitialized_call. congruence.
Qed.

(** A second pmgr_init after a successful one succeeds again and leaves
    the static variables exactly as the first did: what a successful
    initialisation stores depends on the blob alone. *)
Theorem pmgr_init_again {HW : Type} {IO : RegisterIO HW}
    (adt : adt_blob) (st st1 : pmgr_state) (h h1 h2 : HW)
    (evs1 : list event) :
  pmgr_init adt st h = Ret (0, st1) h1 evs1 ->
  exists h3 evs2, pmgr_init adt st1 h2 = Ret (0, st1) h3 evs2.
Proof.
  intros Hrun.
  destruct (pmgr_init_cases adt st h)
    as [(_ & st' & h' & evs & Hrun' & _ & _ & Hany & _)
       |(_ & st' & msg & Hrun' & _)].
  - rewrite Hrun' in Hrun. injection Hrun as <- _ _. apply Hany.
  - rewrite Hrun' in Hrun. discriminate.
Qed.

Lemma pmgr_init_again_witness :
  exists h3 evs2,
    pmgr_init sample_adt sample_state hw_running = Ret (0, sample_state) h3 evs2.
Proof.
  refine (pmgr_init_again sample_adt pmgr_state0 sample_state hw_idle
            (mk_regfile ∅ ∅)
            hw_running
            [EvPrint MsgCleaningUp; EvRead 0x23b700108 0; EvRead 0x23b700110 0;
             EvPrint (MsgPsregOutOfBounds 7);
             EvRead 0x23d280218 0; EvRead 0x23d280220 0; EvRead 0x23d280228 0;
             EvPrint (MsgInitialized 7)] _).
  vm_compute. reflexivity.
Defined.

(** ** Results of the operations *)

Section Results.

Context {HW : Type} {IO : RegisterIO HW}.
Variable adt : adt_blob.

Lemma clocks_loop_range fuel st clocks target_mode recurse n :
  forall i res (h : HW) r h' evs,
    res = 0 \/ res = -1 ->
    clocks_loop adt fuel st clocks target_mode recurse i n res h = Ret r h' evs ->
    r = 0 \/ r = -1.
Proof.
  induction n as [|n IH]; intros i res h r h' evs Hres H.
  - now injection H as <- _ _.
  - cbn [clocks_loop] in H.
    apply bind_Ret_inv in H as (r0 & h1 & e1 & e2 & _ & H & _).
    eapply IH; [|exact H]. destruct (negb (r0 =? 0)); auto.
Qed.

Lemma pmgr_adt_clocks_set_mode_range fuel st path target_mode recurse
    (h : HW) r h' evs :
  pmgr_adt_clocks_set_mode adt fuel st path target_mode recurse h = Ret r h' evs ->
  r = 0 \/ r = -1.
Proof.
  unfold pmgr_adt_clocks_set_mode. intros H.
  apply bind_Ret_inv in H as (found & h1 & e1 & e2 & _ & H & _).
  destruct found as [[clocks n]|]; [|injection H as <- _ _; now right].
  eapply clocks_loop_range; [|exact H]. now left.
Qed.

End Results.

(** Whatever a public operation returns is 0 or -1. The callers inside the
    file test the results in two ways ([ret < 0] in the recursion, non-zero
    in the batch loop and for pmgr_set_mode); on these values the two tests
    agree. *)
Theorem results_are_zero_or_minus_one {HW : Type} {IO : RegisterIO HW}
    (adt : adt_blob) (fuel : nat) (st : pmgr_state) (h : HW) :
  (forall dev_id r h' evs,
     pmgr_clock_enable adt fuel st dev_id h = Ret r h' evs
     \/ pmgr_clock_disable adt fuel st dev_id h = Ret r h' evs ->
     r = 0 \/ r = -1)
  /\ (forall path r h' evs,
        pmgr_adt_clocks_enable adt fuel st path h = Ret r h' evs
        \/ pmgr_adt_clocks_disable adt fuel st path h = Ret r h' evs ->
        r = 0 \/ r = -1)
  /\ (forall r st' h' evs,
        pmgr_init adt st h = Ret (r, st') h' evs -> r = 0 \/ r = -1)
  /\ (forall r : Z, r = 0 \/ r = -1 -> (r <? 0) = negb (r =? 0)).
Proof.
  repeat split.
  - intros dev_id r h' evs [H|H];
      eapply pmgr_set_mode_recursive_range; exact H.
  - intros path r h' evs [H|H];
      eapply pmgr_adt_clocks_set_mode_range; exact H.
  - intros r st' h' evs H.
    destruct (pmgr_init_cases adt st h)
      as [(_ & st1 & h1 & evs1 & Hrun & _)|(_ & st1 & msg & Hrun & _)];
      rewrite Hrun in H; injection H as <- _ _ _; auto.
  - intros r [-> | ->]; reflexivity.
Qed.

(** ** Devices without parents, dangling parents, cycles *)

Section Shapes.

Context {HW : Type} {IO : RegisterIO HW}.
Variable adt : adt_blob.

Lemma parents_loop_empty_slots (call : Z -> M HW Z) ps (h : HW) :
  Forall (fun p => p = 0) ps -> parents_loop call ps h = Ret 0 h [].
Proof.
  induction 1 as [|p ps -> _ IH]; [reflexivity|]. cbn. exact IH.
Qed.

End Shapes.

(** For a device whose parent slots are both empty (and for an id that is
    not in the table) the recursive call is the call that does not recurse:
    same result, same hardware state, same events, at any recursion depth. *)
Theorem no_parents_no_recursion {HW : Type} {IO : RegisterIO HW}
    (adt : adt_blob) (fuel : nat) (st : pmgr_state)
    (dev_id target_mode : Z) (h : HW) :
  Forall (fun p => p = 0) (parents_of st dev_id) ->
  pmgr_set_mode_recursive adt (S fuel) st dev_id target_mode true h
  = pmgr_set_mode_recursive adt 1 st dev_id target_mode false h.
Proof.
  intros Hp. rewrite pmgr_set_mode_recursive_eq. cbn [negb].
  change (pmgr_set_mode_recursive adt 1 st dev_id target_mode false)
    with (own_transition adt st dev_id target_mode).
  unfold bind.
  destruct (own_transition adt st dev_id target_mode h) as [r h1 e1|x] eqn:Hown;
    [|reflexivity].
  destruct (r =? 0) eqn:E.
  - rewrite parents_loop_empty_slots by exact Hp.
    rewrite app_nil_r. f_equal. lia.
  - cbn. now rewrite app_nil_r.
Qed.

Lemma no_parents_no_recursion_witness :
  pmgr_clock_enable sample_adt 5 sample_state 1 hw_idle
  = pmgr_set_mode_recursive sample_adt 1 sample_state 1 PMGR_PS_ACTIVE false hw_idle.
Proof.
  apply (no_parents_no_recursion sample_adt 4 sample_state 1 PMGR_PS_ACTIVE
           hw_idle).
  repeat constructor.
Defined.

(** A parent slot that names an id missing from the table makes the
    recursive call fail, but only after the device's own transition has been
    applied: the result is -1, and the hardware state and the events are
    those of the own transition. *)
Theorem dangling_parent_fails_after_own_transition {HW : Type}
    {IO : RegisterIO HW} (adt : adt_blob) (fuel : nat) (st : pmgr_state)
    (dev_id : Z) (d : pmgr_device) (target_mode : Z) (h h0 : HW)
    (e0 : list event) :
  is_Some (pmgr_devices st) ->
  lookup_device st dev_id = Some d ->
  pmgr_set_mode_recursive adt 1 st dev_id target_mode false h = Ret 0 h0 e0 ->
  parent d 0 <> 0 ->
  lookup_device st (parent d 0) = None ->
  pmgr_set_mode_recursive adt (S (S fuel)) st dev_id target_mode true h
  = Ret (-1) h0 e0.
Proof.
  intros Hdev Hd Hown Hnz Hnone.
  rewrite (pmgr_set_mode_recursive_slots adt (S fuel) st dev_id d target_mode h Hd).
  unfold own_transition. rewrite (bind_Ret _ _ _ _ _ _ Hown). cbn [Z.eqb].
  assert (Hinit : (pmgr_initialized st =? 0) = false).
  { revert Hown. cbn [pmgr_set_mode_recursive].
    destruct (pmgr_initialized st =? 0); [discriminate|reflexivity]. }
  assert (Hp : parent_slot adt (S fuel) st target_mode (parent d 0) h0
               = Ret (-1) h0 []).
  { unfold parent_slot. destruct (parent d 0 =? 0) eqn:E; [lia|].
    cbn [pmgr_set_mode_recursive]. rewrite Hinit, E.
    rewrite (bind_Ret_nil _ _ _ _ _ (pmgr_find_device_pure st _ h0 Hdev)).
    now rewrite Hnone. }
  rewrite (bind_Ret _ _ _ _ _ _ Hp). cbn. now rewrite app_nil_r.
Qed.

(** ORPH of the sample board names parent 9, which is not in the table:
    enabling it fails and leaves ORPH switched on. *)
Lemma dangling_parent_fails_after_own_transition_witness :
  pmgr_clock_enable sample_adt 2 sample_state 5 hw_idle
  = Ret (-1) (mk_regfile {[ 0x23d280218 := 0xff ]} ∅)
      [EvRead 0x23d280218 0; EvWrite 0x23d280218 0xf; EvRead 0x23d280218 0xff].
Proof.
  apply (dangling_parent_fails_after_own_transition sample_adt 0 sample_state 5
           (mk_device 0 9 0 3 1 5 "ORPH") PMGR_PS_ACTIVE hw_idle).
  - eexists; reflexivity.
  - reflexivity.
  - vm_compute. reflexivity.
  - discriminate.
  - reflexivity.
Defined.

(** The code has no guard against cycles. Let [P] be a set of ids, each a
    device of the table whose own transition succeeds from every hardware
    state and whose parent slot 0 holds an id of [P] again. Then a recursive
    call on an id of [P] returns at no recursion depth. *)
Theorem parent_cycle_never_returns {HW : Type} {IO : RegisterIO HW}
    (adt : adt_blob) (st : pmgr_state) (target_mode : Z) (P : Z -> Prop) :
  (forall dev_id, P dev_id ->
     exists d,
       lookup_device st dev_id = Some d
       /\ parent d 0 <> 0 /\ P (parent d 0)
       /\ forall h : HW, exists h0 e0,
            pmgr_set_mode_recursive adt 1 st dev_id target_mode false h
            = Ret 0 h0 e0) ->
  forall fuel dev_id (h : HW),
    P dev_id ->
    pmgr_set_mode_recursive adt fuel st dev_id target_mode true h
    = Abort OutOfFuel.
Proof.
  intros HP fuel. induction fuel as [|fuel IH]; intros dev_id h Hin;
    [reflexivity|].
  destruct (HP dev_id Hin) as (d & Hd & Hnz & Hnext & Hown).
  destruct (Hown h) as (h0 & e0 & Hrun).
  rewrite (pmgr_set_mode_recursive_slots adt fuel st dev_id d target_mode h Hd).
  unfold own_transition. rewrite (bind_Ret _ _ _ _ _ _ Hrun). cbn [Z.eqb].
  assert (Hslot : parent_slot adt fuel st target_mode (parent d 0) h0
                  = Abort OutOfFuel).
  { unfold parent_slot. destruct (parent d 0 =? 0) eqn:E; [lia|]. now apply IH. }
  now rewrite (bind_Abort _ _ _ _ Hslot).
Qed.

(** A table with one virtual device that is its own parent. *)
Definition loop_state : pmgr_state :=
  mk_state 1 [0; 8; 16; 0; 0; 0; 0; 0] 16
    (Some (as_u32 (view_of sample_ps_regs []))) 24
    (Some (as_devices (view_of [] [mk_device 0x10 3 0 0 0 3 "LOOP"]))) 1.

Lemma parent_cycle_never_returns_witness :
  pmgr_clock_enable sample_adt 1000 loop_state 3 hw_idle = Abort OutOfFuel.
Proof.
  apply (parent_cycle_never_returns sample_adt loop_state PMGR_PS_ACTIVE
           (fun dev_id => dev_id = 3)); [|reflexivity].
  intros dev_id ->. exists (mk_device 0x10 3 0 0 0 3 "LOOP").
  split; [reflexivity|]. split; [discriminate|]. split; [reflexivity|].
  intros h. exists h, []. reflexivity.
Defined.

(** ** Which registers a recursive call touches *)

Section Reach.

Context {HW : Type} {IO : RegisterIO HW}.
Variable adt : adt_blob.

(** The event, if it is a register access, goes to the register of the
    non-virtual device [dev_id] or of one of its ancestors, and if it is a
    write it carries [target_mode] in its TARGET_STATE field. *)
Definition within_reach (st : pmgr_state) (target_mode dev_id : Z)
    (e : event) : Prop :=
  is_io e = true ->
  exists a d,
    (a = dev_id \/ ancestor st dev_id a)
    /\ lookup_device st a = Some d /\ is_virtual d = false
    /\ device_addr adt st d <> 0
    /\ io_addr e = Some (device_addr adt st d)
    /\ forall addr v, e = EvWrite addr v ->
         Z.land v PMGR_PS_TARGET = FIELD_PREP PMGR_PS_TARGET target_mode.

Lemma own_transition_within_reach st dev_id target_mode (h : HW) r h' evs :
  tables_loaded st ->
  own_transition adt st dev_id target_mode h = Ret r h' evs ->
  Forall (within_reach st target_mode dev_id) evs.
Proof.
  intros Hl.
  destruct (own_transition_eq adt st dev_id target_mode Hl)
    as (msgs & Hmsgs & ->).
  assert (Hquiet : forall l, Forall (fun e => is_io e = false) l ->
            Forall (within_reach st target_mode dev_id) l).
  { intros l. apply List.Forall_impl. intros e He Hio. congruence. }
  destruct (pmgr_initialized st =? 0);
    [intros [= _ _ <-]; apply Hquiet; now repeat constructor|].
  destruct (dev_id =? 0); [intros [= _ _ <-]; constructor|].
  destruct (lookup_device st dev_id) as [d|] eqn:Hd;
    [|intros [= _ _ <-]; constructor].
  destruct (is_virtual d) eqn:Hv; [intros [= _ _ <-]; constructor|].
  destruct (device_addr adt st d =? 0) eqn:Ea;
    [intros [= _ _ <-]; now apply Hquiet|].
  intros Hrun.
  destruct (pmgr_set_mode_trace (device_addr adt st d) target_mode h)
    as (v0 & r' & h'' & misses & tail & Htrace & Hmiss & Hres).
  rewrite Htrace in Hrun. injection Hrun as _ _ <-.
  assert (Hat : forall e,
            io_addr e = Some (device_addr adt st d) ->
            (forall addr v, e = EvWrite addr v ->
               Z.land v PMGR_PS_TARGET = FIELD_PREP PMGR_PS_TARGET target_mode) ->
            within_reach st target_mode dev_id e).
  { intros e Haddr Hw _. exists dev_id, d. repeat split; trivial; [now left|lia]. }
  constructor; [apply Hat; [reflexivity|discriminate]|].
  constructor.
  { apply Hat; [reflexivity|]. intros addr v [= _ <-]. apply with_target_field. }
  apply Forall_app. split.
  - eapply List.Forall_impl; [|exact Hmiss].
    intros e (v & -> & _). apply Hat; [reflexivity|discriminate].
  - destruct Hres as [(_ & _ & v & -> & _)|(_ & _ & v & ->)].
    + constructor; [|constructor]. apply Hat; [reflexivity|discriminate].
    + constructor; [apply Hat; [reflexivity|discriminate]|].
      constructor; [|constructor]. intros Hio. discriminate.
Qed.

Lemma within_reach_parent st target_mode dev_id p e :
  In p (parents_of st dev_id) -> p <> 0 ->
  within_reach st target_mode p e -> within_reach st target_mode dev_id e.
Proof.
  intros Hp Hnz He Hio.
  destruct (He Hio) as (a & d & Ha & Hrest). exists a, d. split; [|exact Hrest].
  right. destruct Ha as [->|Ha].
  - now apply ancestor_parent.
  - now apply ancestor_step with (p := p).
Qed.

Lemma parents_loop_events (call : Z -> M HW Z) (Q : event -> Prop) ps :
  (forall p h r h' evs,
     In p ps -> p <> 0 -> call p h = Ret r h' evs -> Forall Q evs) ->
  forall (h : HW) r h' evs,
    parents_loop call ps h = Ret r h' evs -> Forall Q evs.
Proof.
  induction ps as [|p ps IH]; intros Hcall h r h' evs H.
  - injection H as _ _ <-. constructor.
  - assert (Hrest : forall h r h' evs,
              parents_loop call ps h = Ret r h' evs -> Forall Q evs).
    { apply IH. intros q h1 r1 h2 e Hq. apply Hcall. now right. }
    cbn [parents_loop] in H. destruct (p =? 0) eqn:E; cbn [negb] in H; [eauto|].
    apply bind_Ret_inv in H as (r0 & h1 & e1 & e2 & Hc & H & ->).
    apply Forall_app. split.
    + eapply Hcall; [now left|lia|exact Hc].
    + destruct (r0 <? 0); [injection H as _ _ <-; constructor|eauto].
Qed.

Lemma pmgr_set_mode_recursive_within_reach fuel :
  forall st dev_id target_mode recurse (h : HW) r h' evs,
    tables_loaded st ->
    pmgr_set_mode_recursive adt fuel st dev_id target_mode recurse h
    = Ret r h' evs ->
    Forall (within_reach st target_mode dev_id) evs.
Proof.
  induction fuel as [|fuel IH];
    intros st dev_id target_mode recurse h r h' evs Hl H; [discriminate|].
  rewrite pmgr_set_mode_recursive_eq in H.
  apply bind_Ret_inv in H as (r0 & h0 & e0 & e1 & Hown & H & ->).
  apply Forall_app. split.
  { eapply own_transition_within_reach; eassumption. }
  destruct (r0 =? 0); [|injection H as _ _ <-; constructor].
  destruct recurse; cbn [negb] in H; [|injection H as _ _ <-; constructor].
  eapply parents_loop_events; [|exact H].
  intros p h1 r1 h2 e Hp Hnz Hrun. cbv beta in Hrun.
  eapply List.Forall_impl; [|eapply IH; eassumption].
  intros ev. now apply within_reach_parent.
Qed.

End Reach.

(** A call of pmgr_set_mode_recursive, recursing or not, accesses no
    register but those of the device it is called for and of the ancestors
    of that device, each a non-virtual device of the table with a resolved
    address; and every value it writes carries the requested state in its
    TARGET_STATE field. *)
Theorem recursive_call_stays_within_ancestors {HW : Type} {IO : RegisterIO HW}
    (adt : adt_blob) (fuel : nat) (st : pmgr_state)
    (dev_id target_mode : Z) (recurse : bool) (h : HW) (r : Z) (h' : HW)
    (evs : list event) :
  tables_loaded st ->
  pmgr_set_mode_recursive adt fuel st dev_id target_mode recurse h
  = Ret r h' evs ->
  forall e, In e evs -> is_io e = true ->
    exists a d,
      (a = dev_id \/ ancestor st dev_id a)
      /\ lookup_device st a = Some d /\ is_virtual d = false
      /\ device_addr adt st d <> 0
      /\ io_addr e = Some (device_addr adt st d)
      /\ forall addr v, e = EvWrite addr v ->
           Z.land v PMGR_PS_TARGET = FIELD_PREP PMGR_PS_TARGET target_mode.
Proof.
  intros Hl Hrun e He Hio.
  pose proof (pmgr_set_mode_recursive_within_reach adt fuel st dev_id target_mode
                recurse h r h' evs Hl Hrun) as Hall.
  rewrite List.Forall_forall in Hall. exact (Hall e He Hio).
Qed.

(** Enabling UART on the sample board also writes the register of SOC:
    SOC is an ancestor of UART, and the value written requests ACTIVE. *)
Lemma recursive_call_stays_within_ancestors_witness :
  exists a d,
    (a = 2 \/ ancestor sample_state 2 a)
    /\ lookup_device sample_state a = Some d /\ is_virtual d = false
    /\ device_addr sample_adt sample_state d <> 0
    /\ io_addr (EvWrite 0x23b700108 0xf)
       = Some (device_addr sample_adt sample_state d)
    /\ forall addr v, EvWrite 0x23b700108 0xf = EvWrite addr v ->
         Z.land v PMGR_PS_TARGET = FIELD_PREP PMGR_PS_TARGET PMGR_PS_ACTIVE.
Proof.
  refine (recursive_call_stays_within_ancestors sample_adt 3 sample_state 2
            PMGR_PS_ACTIVE true hw_idle 0
            (mk_regfile {[ 0x23b700108 := 0xff; 0x23b700110 := 0xff ]} ∅)
            [EvRead 0x23b700110 0; EvWrite 0x23b700110 0xf;
             EvRead 0x23b700110 0xff; EvRead 0x23b700108 0;
             EvWrite 0x23b700108 0xf; EvRead 0x23b700108 0xff]
            (conj (ex_intro _ _ eq_refl) (ex_intro _ _ eq_refl)) _
            (EvWrite 0x23b700108 0xf) _ eq_refl).
  - vm_compute. reflexivity.
  - do 4 right. left. reflexivity.
Defined.

Section ReachFrame.

Context {HW : Type} {IO : RegisterIO HW} {RF : RegisterFile HW}.
Variable adt : adt_blob.

(** [b] is not the register of [dev_id] nor of one of its ancestors. *)
Definition outside_ancestry (st : pmgr_state) (dev_id b : Z) : Prop :=
  forall a d,
    a = dev_id \/ ancestor st dev_id a ->
    lookup_device st a = Some d -> is_virtual d = false ->
    b <> device_addr adt st d.

Lemma outside_ancestry_parent st dev_id p b :
  In p (parents_of st dev_id) -> p <> 0 ->
  outside_ancestry st dev_id b -> outside_ancestry st p b.
Proof.
  intros Hp Hnz Hout a d Ha. apply Hout. right. destruct Ha as [->|Ha].
  - now apply ancestor_parent.
  - now apply ancestor_step with (p := p).
Qed.

Lemma own_transition_frame st dev_id target_mode (h : HW) r h' evs b :
  tables_loaded st ->
  own_transition adt st dev_id target_mode h = Ret r h' evs ->
  outside_ancestry st dev_id b -> peek h' b = peek h b.
Proof.
  intros Hl.
  destruct (own_transition_eq adt st dev_id target_mode Hl) as (msgs & _ & ->).
  destruct (pmgr_initialized st =? 0); [now intros [= _ <- _]|].
  destruct (dev_id =? 0); [now intros [= _ <- _]|].
  destruct (lookup_device st dev_id) as [d|] eqn:Hd; [|now intros [= _ <- _]].
  destruct (is_virtual d) eqn:Hv; [now intros [= _ <- _]|].
  destruct (device_addr adt st d =? 0); [now intros [= _ <- _]|].
  intros Hrun Hout. eapply pmgr_set_mode_frame; [exact Hrun|].
  apply (Hout dev_id d); auto.
Qed.

Lemma parents_loop_frame (call : Z -> M HW Z) ps b :
  (forall p (h : HW) r h' evs,
     In p ps -> p <> 0 -> call p h = Ret r h' evs -> peek h' b = peek h b) ->
  forall (h : HW) r h' evs,
    parents_loop call ps h = Ret r h' evs -> peek h' b = peek h b.
Proof.
  induction ps as [|p ps IH]; intros Hcall h r h' evs H.
  - now injection H as _ <- _.
  - assert (Hrest : forall (h : HW) r h' evs,
              parents_loop call ps h = Ret r h' evs -> peek h' b = peek h b).
    { apply IH. intros q h1 r1 h2 e Hq. apply Hcall. now right. }
    cbn [parents_loop] in H. destruct (p =? 0) eqn:E; cbn [negb] in H; [eauto|].
    apply bind_Ret_inv in H as (r0 & h1 & e1 & e2 & Hc & H & _).
    assert (H1 : peek h1 b = peek h b)
      by (eapply Hcall; [now left|lia|exact Hc]).
    destruct (r0 <? 0); [injection H as _ <- _; exact H1|].
    rewrite <- H1. eauto.
Qed.

Lemma pmgr_set_mode_recursive_frame fuel :
  forall st dev_id target_mode recurse (h : HW) r h' evs b,
    tables_loaded st ->
    pmgr_set_mode_recursive adt fuel st dev_id target_mode recurse h
    = Ret r h' evs ->
    outside_ancestry st dev_id b -> peek h' b = peek h b.
Proof.
  induction fuel as [|fuel IH];
    intros st dev_id target_mode recurse h r h' evs b Hl H Hout; [discriminate|].
  rewrite pmgr_set_mode_recursive_eq in H.
  apply bind_Ret_inv in H as (r0 & h0 & e0 & e1 & Hown & H & _).
  assert (H0 : peek h0 b = peek h b)
    by (eapply own_transition_frame; eassumption).
  destruct (r0 =? 0); [|injection H as _ <- _; exact H0].
  destruct recurse; cbn [negb] in H; [|injection H as _ <- _; exact H0].
  rewrite <- H0. eapply parents_loop_frame; [|exact H].
  intros p h1 r1 h2 e Hp Hnz Hrun. cbv beta in Hrun.
  eapply IH; [exact Hl|exact Hrun|].
  now apply outside_ancestry_parent with (dev_id := dev_id).
Qed.

End ReachFrame.

(** On hardware whose registers are independent, pmgr_clock_enable leaves
    every register that belongs neither to the device nor to one of its
    ancestors with the value it had: enabling a domain never disturbs an
    unrelated one, whether the call succeeds or fails on the way. *)
Theorem pmgr_clock_enable_frame {HW : Type} {IO : RegisterIO HW}
    {RF : RegisterFile HW} (adt : adt_blob) (fuel : nat) (st : pmgr_state)
    (dev_id : Z) (h : HW) (r : Z) (h' : HW) (evs : list event) (b : Z) :
  tables_loaded st ->
  pmgr_clock_enable adt fuel st dev_id h = Ret r h' evs ->
  (forall a d,
     a = dev_id \/ ancestor st dev_id a ->
     lookup_device st a = Some d -> is_virtual d = false ->
     b <> device_addr adt st d) ->
  peek h' b = peek h b.
Proof.
  intros Hl Hrun Hout.
  exact (pmgr_set_mode_recursive_frame adt fuel st dev_id PMGR_PS_ACTIVE true
           h r h' evs b Hl Hrun Hout).
Qed.

Lemma ancestors_of_uart a :
  a = 2 \/ ancestor sample_state 2 a -> a = 2 \/ a = 1.
Proof.
  intros [->|Ha]; [now left|right].
  inversion Ha as [? p Hp Hnz|? p ? Hp Hnz Hpa]; subst.
  - vm_compute in Hp. destruct Hp as [<-|[<-|[]]]; [reflexivity|congruence].
  - vm_compute in Hp. destruct Hp as [<-|[<-|[]]]; [|congruence].
    inversion Hpa as [? q Hq Hqz|? q ? Hq Hqz _]; subst;
      vm_compute in Hq; destruct Hq as [<-|[<-|[]]]; congruence.
Qed.

(** Enabling UART on the sample board, with SPI running, leaves the
    register of SPI as it was. *)
Lemma pmgr_clock_enable_frame_witness :
  peek (mk_regfile {[ 0x23b700108 := 0xff; 0x23b700110 := 0xff;
                      0x23d280220 := 0xff ]} ∅) 0x23d280220
  = peek (mk_regfile {[ 0x23d280220 := 0xff ]} ∅) 0x23d280220.
Proof.
  refine (pmgr_clock_enable_frame sample_adt 3 sample_state 2
            (mk_regfile {[ 0x23d280220 := 0xff ]} ∅) 0
            (mk_regfile {[ 0x23b700108 := 0xff; 0x23b700110 := 0xff;
                           0x23d280220 := 0xff ]} ∅)
            [EvRead 0x23b700110 0; EvWrite 0x23b700110 0xf;
             EvRead 0x23b700110 0xff; EvRead 0x23b700108 0;
             EvWrite 0x23b700108 0xf; EvRead 0x23b700108 0xff]
            0x23d280220
            (conj (ex_intro _ _ eq_refl) (ex_intro _ _ eq_refl)) _ _).
  - vm_compute. reflexivity.
  - intros a d Ha Hd _. apply ancestors_of_uart in Ha.
    destruct Ha as [-> | ->]; vm_compute in Hd; injection Hd as <-;
      vm_compute; discriminate.
Defined.

(** ** What the reconciliation pass writes *)

Section PassWrites.

Context {HW : Type} {IO : RegisterIO HW}.
Variable adt : adt_blob.

(** A write of the pass on behalf of the device [d]: it requests ACTIVE,
    and it goes to the resolved address of the device found for one of the
    two parent slots of [d]. *)
Definition parent_write (st : pmgr_state) (d : pmgr_device) (e : event)
  : Prop :=
  forall a v,
    e = EvWrite a v ->
    Z.land v PMGR_PS_TARGET = FIELD_PREP PMGR_PS_TARGET PMGR_PS_ACTIVE
    /\ exists j pd,
         (j = 0 \/ j = 1)%nat /\ parent d j <> 0
         /\ lookup_device st (parent d j) = Some pd
         /\ a = device_addr adt st pd /\ a <> 0.

Lemma no_write_quiet (P : event -> Prop) l :
  (forall e, is_write e = false -> P e) ->
  Forall (fun e => is_io e = false) l -> Forall P l.
Proof.
  intros HP. apply List.Forall_impl. intros e He. apply HP. now destruct e.
Qed.

Lemma init_parent_writes st d j (h : HW) h' evs :
  tables_loaded st -> (j = 0 \/ j = 1)%nat ->
  init_parent adt st d j h = Ret tt h' evs ->
  Forall (parent_write st d) evs.
Proof.
  intros Hl Hj Hrun.
  assert (Hnw : forall e, is_write e = false -> parent_write st d e).
  { intros e He a v ->. discriminate. }
  destruct (init_parent_cases adt st d j h Hl) as (H0 & Hnone & Hnoaddr & Hreal).
  destruct (Z.eq_dec (parent d j) 0) as [Hz|Hnz].
  { rewrite (H0 Hz) in Hrun. injection Hrun as _ <-. constructor. }
  destruct (lookup_device st (parent d j)) as [pd|] eqn:Hpd.
  2:{ rewrite (Hnone Hnz eq_refl) in Hrun. injection Hrun as _ <-.
      constructor; [now apply Hnw|constructor]. }
  destruct (Z.eq_dec (device_addr adt st pd) 0) as [Ha|Ha].
  { destruct (Hnoaddr pd Hnz eq_refl Ha) as (msgs & Hm & Hq).
    rewrite Hm in Hrun. injection Hrun as _ <-.
    now apply no_write_quiet. }
  specialize (Hreal pd Hnz eq_refl Ha). cbv zeta in Hreal.
  destruct (shows_active _).
  { rewrite Hreal in Hrun. injection Hrun as _ <-.
    constructor; [now apply Hnw|constructor]. }
  destruct Hreal as (r & h2 & e & Hs & Hinit & Hw & Hio).
  rewrite Hinit in Hrun. injection Hrun as _ <-.
  constructor; [now apply Hnw|]. constructor; [now apply Hnw|].
  apply List.Forall_forall. intros ev Hev a v ->.
  assert (Hin : In (EvWrite a v) (List.filter is_write e))
    by (apply List.filter_In; now split).
  rewrite Hw in Hin. destruct Hin as [[= <- <-]|[]].
  split; [apply with_target_field|].
  exists j, pd. repeat split; trivial.
Qed.

Lemma init_device_writes st d (h : HW) h' evs :
  tables_loaded st ->
  init_device adt st d h = Ret tt h' evs ->
  Forall (fun e => is_virtual d = false /\ parent_write st d e) evs.
Proof.
  intros Hl Hrun.
  destruct (init_device_cases adt st d h Hl) as (Hvirt & Hnoaddr & Hreal).
  destruct (is_virtual d) eqn:Hv.
  { rewrite (Hvirt eq_refl) in Hrun. injection Hrun as _ <-. constructor. }
  assert (Hnw : forall e, is_write e = false ->
            false = false /\ parent_write st d e).
  { intros e He. split; [reflexivity|]. intros a v ->. discriminate. }
  destruct (Z.eq_dec (device_addr adt st d) 0) as [Ha|Ha].
  { destruct (Hnoaddr eq_refl Ha) as (msgs & Hm & Hq).
    rewrite Hm in Hrun. injection Hrun as _ <-. now apply no_write_quiet. }
  specialize (Hreal eq_refl Ha). cbv zeta in Hreal.
  destruct (shows_active _).
  2:{ rewrite Hreal in Hrun. injection Hrun as _ <-.
      constructor; [now apply Hnw|constructor]. }
  rewrite Hreal in Hrun.
  apply bind_Ret_inv in Hrun as (v & h1 & e1 & e2 & Hread & Hrun & ->).
  apply bind_Ret_inv in Hrun as ([] & h2 & e3 & e4 & Hp0 & Hp1 & ->).
  rewrite read32_total in Hread. injection Hread as _ _ <-.
  constructor; [now apply Hnw|].
  apply Forall_app. split.
  - eapply List.Forall_impl;
      [|eapply (init_parent_writes st d 0); [exact Hl|now left|exact Hp0]].
    now intros e He.
  - eapply List.Forall_impl;
      [|eapply (init_parent_writes st d 1); [exact Hl|now right|exact Hp1]].
    now intros e He.
Qed.

Lemma for_each_device_events (f : pmgr_device -> M HW unit)
    (Q : pmgr_device -> event -> Prop) ds :
  (forall d (h : HW) h' evs, f d h = Ret tt h' evs -> Forall (Q d) evs) ->
  forall (h : HW) h' evs,
    for_each_device f ds h = Ret tt h' evs ->
    Forall (fun e => exists d, In d ds /\ Q d e) evs.
Proof.
  intros Hf. induction ds as [|d ds IH]; intros h h' evs H.
  - injection H as _ <-. constructor.
  - cbn [for_each_device] in H.
    apply bind_Ret_inv in H as ([] & h1 & e1 & e2 & Hd & H & ->).
    apply Forall_app. split.
    + eapply List.Forall_impl; [|exact (Hf _ _ _ _ Hd)].
      intros e He. exists d. split; [now left|exact He].
    + eapply List.Forall_impl; [|exact (IH _ _ _ H)].
      intros e (d' & Hin & He). exists d'. split; [now right|exact He].
Qed.

End PassWrites.

(** Whatever pmgr_init writes, it writes as a request for ACTIVE, and to
    the resolved register of the device that a parent slot of some non-virtual
    device of the table names: the pass never gates anything, and never
    writes to a register no parent slot leads to. A failing pmgr_init writes
    nothing. *)
Theorem pmgr_init_writes_only_active_to_parents {HW : Type}
    {IO : RegisterIO HW} (adt : adt_blob) (st : pmgr_state) (h : HW)
    (r : Z) (st' : pmgr_state) (h' : HW) (evs : list event) :
  pmgr_init adt st h = Ret (r, st') h' evs ->
  forall a v,
    In (EvWrite a v) evs ->
    r = 0
    /\ Z.land v PMGR_PS_TARGET = FIELD_PREP PMGR_PS_TARGET PMGR_PS_ACTIVE
    /\ exists d j pd,
         In d (device_array st') /\ is_virtual d = false
         /\ (j = 0 \/ j = 1)%nat /\ parent d j <> 0
         /\ lookup_device st' (parent d j) = Some pd
         /\ a = device_addr adt st' pd /\ a <> 0.
Proof.
  intros Hrun a v Hin.
  destruct (pmgr_init_cases adt st h)
    as [(_ & st1 & h1 & evs1 & Hrun1 & _ & Hl & _ & pass & Hevs & h2 & Hpass)
       |(_ & st1 & msg & Hrun1 & _)];
    rewrite Hrun1 in Hrun; injection Hrun as <- <- <- <-.
  2:{ destruct Hin as [[=]|[]]. }
  subst evs1. destruct Hin as [[=]|Hin].
  apply in_app_or in Hin as [Hin|[[=]|[]]].
  pose proof (for_each_device_events (init_device adt st1)
                (fun d e => is_virtual d = false /\ parent_write adt st1 d e)
                (device_array st1)
                (fun d h0 h3 e => init_device_writes adt st1 d h0 h3 e Hl)
                h h2 pass Hpass) as Hall.
  rewrite List.Forall_forall in Hall.
  destruct (Hall _ Hin) as (d & Hd & Hv & Hw).
  destruct (Hw a v eq_refl) as (Ht & j & pd & Hj & Hnz & Hpd & Ha & Hne).
  split; [reflexivity|]. split; [exact Ht|].
  exists d, j, pd. repeat split; trivial.
Qed.

(** In the run of pmgr_init on the sample board with UART left running,
    the one write goes to SOC, which slot 0 of UART names. *)
Lemma pmgr_init_writes_only_active_to_parents_witness :
  exists d j pd,
    In d (device_array sample_state) /\ is_virtual d = false
    /\ (j = 0 \/ j = 1)%nat /\ parent d j <> 0
    /\ lookup_device sample_state (parent d j) = Some pd
    /\ 0x23b700108 = device_addr sample_adt sample_state pd
    /\ 0x23b700108 <> 0.
Proof.
  refine (proj2 (proj2
    (pmgr_init_writes_only_active_to_parents sample_adt pmgr_state0
       hw_uart_left_on 0 sample_state
       (mk_regfile {[ 0x23b700108 := 0xff; 0x23b700110 := 0xf ]} ∅)
       [EvPrint MsgCleaningUp;
        EvRead 0x23b700108 0;
        EvRead 0x23b700110 0xf;
        EvRead 0x23b700108 0;
        EvPrint (MsgEnablingParent "SOC" "UART");
        EvRead 0x23b700108 0; EvWrite 0x23b700108 0xf; EvRead 0x23b700108 0xff;
        EvPrint (MsgPsregOutOfBounds 7);
        EvRead 0x23d280218 0; EvRead 0x23d280220 0; EvRead 0x23d280228 0;
        EvPrint (MsgInitialized 7)]
       _ 0x23b700108 0xf _))).
  - vm_compute. reflexivity.
  - do 6 right. left. reflexivity.
Defined.

(** ** Batch operations: edge cases and reach *)

Section BatchReach.

Context {HW : Type} {IO : RegisterIO HW}.
Variable adt : adt_blob.




End BatchReach.



(** A clock-gates property that is present and non-empty but shorter than
    one entry (1 to 3 bytes) passes the emptiness test and yields zero
    entries: the batch operation returns 0 without any call, any diagnostic
    or any register access, whether or not the engine is initialised. *)
Theorem short_clock_gates_succeed_vacuously {HW : Type} {IO : RegisterIO HW}
    (adt : adt_blob) (fuel : nat) (st : pmgr_state) (path : string)
    (target_mode : Z) (recurse : bool) (clocks : prop_view) (h : HW) :
  0 <= adt_path_offset adt path ->
  prop_ptr (adt_getprop adt (adt_path_offset adt path) "clock-gates")
    = Some clocks ->
  0 < prop_len (adt_getprop adt (adt_path_offset adt path) "clock-gates") < 4 ->
  pmgr_adt_clocks_set_mode adt fuel st path target_mode recurse h = Ret 0 h [].
Proof.
  intros Hnode Hptr Hlen.
  unfold pmgr_adt_clocks_set_mode, pmgr_adt_find_clocks.
  destruct (adt_path_offset adt path <? 0) eqn:E; [lia|]. rewrite Hptr.
  destruct (prop_len _ =? 0) eqn:El; [lia|].
  rewrite bind_ret_l. rewrite Z.div_small by lia. reflexivity.
Qed.

Lemma short_clock_gates_succeed_vacuously_witness :
  pmgr_adt_clocks_set_mode sample_adt 0 sample_state "/arm-io/odd"
    PMGR_PS_ACTIVE true hw_idle
  = Ret 0 hw_idle [].
Proof.
  apply (short_clock_gates_succeed_vacuously sample_adt 0 sample_state
           "/arm-io/odd" PMGR_PS_ACTIVE true (view_of [2] []) hw_idle).
  - discriminate.
  - reflexivity.
  - split; reflexivity.
Defined.

(** ** Addresses within a bank *)

(** When a bank resolves to an address that leaves room for the largest
    offset (255 * 8 bytes) below 2^64, the devices of the bank get the
    addresses bank + 8 * addr_offset without wrap-around: none of them is the
    failure value 0, and two devices share a register only if they have the
    same offset. *)
Theorem device_addresses_in_a_bank {HW : Type} {IO : RegisterIO HW}
    (adt : adt_blob) (st : pmgr_state) (d1 d2 : pmgr_device)
    (bank : Z) (msgs : list event) (h : HW) :
  pmgr_get_psreg adt st (psreg_idx d1) h = Ret bank h msgs ->
  psreg_idx d2 = psreg_idx d1 ->
  0 < bank -> bank + 8 * 255 < 2 ^ 64 ->
  0 <= addr_offset d1 <= 255 -> 0 <= addr_offset d2 <= 255 ->
  exists a1 a2,
    pmgr_device_get_addr adt st d1 h = Ret a1 h msgs
    /\ pmgr_device_get_addr adt st d2 h = Ret a2 h msgs
    /\ a1 = bank + 8 * addr_offset d1
    /\ a2 = bank + 8 * addr_offset d2
    /\ a1 <> 0 /\ a2 <> 0
    /\ (a1 = a2 <-> addr_offset d1 = addr_offset d2).
Proof.
  intros Hbank Hsame Hpos Hroom Ho1 Ho2.
  assert (Haddr : forall d,
            psreg_idx d = psreg_idx d1 -> 0 <= addr_offset d <= 255 ->
            pmgr_device_get_addr adt st d h
            = Ret (bank + 8 * addr_offset d) h msgs).
  { intros d Hd Ho. unfold pmgr_device_get_addr. rewrite Hd.
    rewrite (bind_Ret _ _ _ _ _ _ Hbank).
    destruct (bank =? 0) eqn:E; [lia|].
    rewrite Z.shiftl_mul_pow2 by lia. change (2 ^ 3) with 8.
    unfold u64. rewrite Z.mod_small by lia.
    cbn. rewrite app_nil_r. do 2 f_equal. lia. }
  exists (bank + 8 * addr_offset d1), (bank + 8 * addr_offset d2).
  split; [now apply Haddr|]. split; [now apply Haddr|].
  repeat split; lia.
Qed.

Lemma device_addresses_in_a_bank_witness :
  exists a1 a2,
    pmgr_device_get_addr sample_adt sample_state
      (mk_device 0 0 0 1 0 1 "SOC") hw_idle = Ret a1 hw_idle []
    /\ pmgr_device_get_addr sample_adt sample_state
         (mk_device 0 1 0 2 0 2 "UART") hw_idle = Ret a2 hw_idle []
    /\ a1 = 0x23b700100 + 8 * 1
    /\ a2 = 0x23b700100 + 8 * 2
    /\ a1 <> 0 /\ a2 <> 0
    /\ (a1 = a2 <-> 1 = 2).
Proof.
  apply (device_addresses_in_a_bank sample_adt sample_state
           (mk_device 0 0 0 1 0 1 "SOC") (mk_device 0 1 0 2 0 2 "UART")
           0x23b700100 [] hw_idle); try reflexivity;
    solve [ split; discriminate ].
Defined.

(** ** Enabling succeeds on a sound table and acknowledging hardware *)

Section Liveness.

Context {HW : Type} {IO : RegisterIO HW}.
Variable adt : adt_blob.

(** Every chain of parent links from [dev_id] ends within [n] devices, and
    every device on the way is in the table and, unless virtual, has a
    register that resolves. *)
Fixpoint resolvable_within (st : pmgr_state) (n : nat) (dev_id : Z) : bool :=
  match n with
  | O => false
  | S n' =>
      negb (dev_id =? 0)
      && match lookup_device st dev_id with
         | None => false
         | Some d =>
             (is_virtual d || negb (device_addr adt st d =? 0))
             && forallb (fun p => (p =? 0) || resolvable_within st n' p)
                  [parent d 0; parent d 1]
         end
  end.

Lemma resolvable_enable (I : HW -> Prop) st :
  (forall addr h, I h ->
     exists h' e, pmgr_set_mode addr PMGR_PS_ACTIVE h = Ret 0 h' e /\ I h') ->
  pmgr_initialized st <> 0 -> tables_loaded st ->
  forall n dev_id h,
    resolvable_within st n dev_id = true -> I h ->
    exists h' evs,
      pmgr_set_mode_recursive adt n st dev_id PMGR_PS_ACTIVE true h
      = Ret 0 h' evs /\ I h'.
Proof.
  intros Hack Hi Hl. induction n as [|n IH]; intros dev_id h Hres HI;
    [discriminate|].
  cbn [resolvable_within] in Hres.
  apply andb_true_iff in Hres as [Hnz Hres].
  destruct (lookup_device st dev_id) as [d|] eqn:Hd; [|discriminate].
  apply andb_true_iff in Hres as [Hown Hparents].
  cbn [forallb] in Hparents. rewrite andb_true_r in Hparents.
  apply andb_true_iff in Hparents as [Hp0 Hp1].
  rewrite (pmgr_set_mode_recursive_slots adt n st dev_id d _ h Hd).
  assert (Hself : exists h0 e0,
            own_transition adt st dev_id PMGR_PS_ACTIVE h = Ret 0 h0 e0 /\ I h0).
  { destruct (own_transition_eq adt st dev_id PMGR_PS_ACTIVE Hl)
      as (msgs & _ & ->).
    destruct (pmgr_initialized st =? 0) eqn:Ei; [lia|].
    destruct (dev_id =? 0); [discriminate|]. rewrite Hd.
    destruct (is_virtual d); [eauto|]. cbn [orb] in Hown.
    destruct (device_addr adt st d =? 0); [discriminate|]. now apply Hack. }
  destruct Hself as (h0 & e0 & Hrun0 & HI0).
  rewrite (bind_Ret _ _ _ _ _ _ Hrun0). cbn [Z.eqb].
  assert (Hslot : forall p h1,
            (p =? 0) || resolvable_within st n p = true -> I h1 ->
            exists h2 e,
              parent_slot adt n st PMGR_PS_ACTIVE p h1 = Ret 0 h2 e /\ I h2).
  { intros p h1 Hp HI1. unfold parent_slot.
    destruct (p =? 0); [cbn; eauto|]. now apply IH. }
  destruct (Hslot _ h0 Hp0 HI0) as (h1 & e1 & Hrun1 & HI1).
  rewrite (bind_Ret _ _ _ _ _ _ Hrun1). cbn [Z.ltb Z.compare].
  destruct (Hslot _ h1 Hp1 HI1) as (h2 & e2 & Hrun2 & HI2).
  rewrite (bind_Ret _ _ _ _ _ _ Hrun2). cbn. eauto.
Qed.

End Liveness.

(** On an initialised engine, if every device reachable from [dev_id]
    through parent slots is in the table and resolves (or is virtual), the
    chains end within the recursion depth, and the hardware acknowledges every
    request for ACTIVE in the states of [I], then pmgr_clock_enable returns
    0. *)
Theorem enable_succeeds_when_acknowledged {HW : Type} {IO : RegisterIO HW}
    (adt : adt_blob) (I : HW -> Prop) (fuel n : nat) (st : pmgr_state)
    (dev_id : Z) (h : HW) :
  (forall addr h0, I h0 ->
     exists h1 e, pmgr_set_mode addr PMGR_PS_ACTIVE h0 = Ret 0 h1 e /\ I h1) ->
  pmgr_initialized st <> 0 ->
  tables_loaded st ->
  resolvable_within adt st n dev_id = true ->
  (n <= fuel)%nat ->
  I h ->
  exists h' evs,
    pmgr_clock_enable adt fuel st dev_id h = Ret 0 h' evs /\ I h'.
Proof.
  intros Hack Hi Hl Hres Hfuel HI.
  destruct (resolvable_enable adt I st Hack Hi Hl n dev_id h Hres HI)
    as (h' & evs & Hrun & HI').
  exists h', evs. split; [|exact HI'].
  exact (pmgr_set_mode_recursive_mono adt n fuel st dev_id PMGR_PS_ACTIVE true
           Hfuel _ _ _ _ Hrun).
Qed.

(** The simulated register file acknowledges at the first poll when no
    register is stuck. *)
Lemma regfile_acknowledges addr (h : regfile) :
  stuck h = ∅ ->
  exists h' e,
    pmgr_set_mode addr PMGR_PS_ACTIVE h = Ret 0 h' e /\ stuck h' = ∅.
Proof.
  intros Hs. unfold pmgr_set_mode, mask32, poll32.
  destruct (Z.to_nat PMGR_POLL_TIMEOUT) as [|n] eqn:En;
    [vm_compute in En; discriminate|].
  cbn [poll32_loop]. unfold bind, read32, write32, ret. cbn [hw_read32 hw_write32 regfile_io].
  set (w := Z.lor _ (FIELD_PREP PMGR_PS_TARGET PMGR_PS_ACTIVE)).
  assert (Hread : regfile_peek
                    (mk_regfile (<[addr := regfile_store h addr w]> (regs h))
                       (stuck h)) addr
                  = regfile_store h addr w).
  { unfold regfile_peek. cbn. now rewrite lookup_insert_eq. }
  rewrite Hread.
  assert (Hack : Z.land (regfile_store h addr w) PMGR_PS_ACTUAL
                 = FIELD_PREP PMGR_PS_ACTUAL PMGR_PS_ACTIVE).
  { unfold regfile_store. rewrite Hs.
    rewrite bool_decide_eq_false_2 by apply not_elem_of_empty.
    assert (Hw : Z.land w PMGR_PS_TARGET = 0xf).
    { subst w. rewrite Z.land_lor_distr_l, <- Z.land_assoc.
      change (Z.land (Z.lxor 4294967295 PMGR_PS_TARGET) PMGR_PS_TARGET) with 0.
      now rewrite Z.land_0_r. }
    rewrite Hw, Z.land_lor_distr_l, <- Z.land_assoc.
    change (Z.land (Z.lxor 4294967295 PMGR_PS_ACTUAL) PMGR_PS_ACTUAL) with 0.
    now rewrite Z.land_0_r. }
  rewrite Hack.
  replace (FIELD_PREP PMGR_PS_ACTUAL PMGR_PS_ACTIVE
           =? FIELD_PREP PMGR_PS_ACTUAL PMGR_PS_ACTIVE) with true
    by (symmetry; apply Z.eqb_refl).
  cbn. do 2 eexists. split; [reflexivity|exact Hs].
Qed.

(** SPI of the sample board: through VIRT and UART every chain ends at
    SOC within 3 devices. *)
Lemma enable_succeeds_when_acknowledged_witness :
  exists h' evs,
    pmgr_clock_enable sample_adt 3 sample_state 6 hw_idle = Ret 0 h' evs
    /\ stuck h' = ∅.
Proof.
  apply (enable_succeeds_when_acknowledged sample_adt
           (fun h => stuck h = ∅) 3 3 sample_state 6 hw_idle).
  - intros addr h0. apply regfile_acknowledges.
  - discriminate.
  - split; eexists; reflexivity.
  - reflexivity.
  - constructor.
  - reflexivity.
Defined.
